(** * OpenAPI to llm.txt conversion: the schema engine and the document assembler

    A shallow embedding of [src/services/conversionService.ts]:
    [generateExample] (the example synthesizer), [parseSchema] (the schema
    describer) and [localConvertToLlmTxt] (the document assembler), followed
    by the properties of the specification that concern them.

    Modelling choices.
    - A document is the tree the JSON decoder returns: [value].  An object is
      the list of its own properties in the order the engine enumerates them
      (array-index keys in ascending order first, then the other keys in
      creation order); [define_prop] keeps that order.
    - [VUndefined] is the absence of a value; it never occurs in a decoded
      document but the synthesizer returns it.
    - Numbers are integers (the synthesizer itself only produces 0), strings
      are sequences of 8-bit units.
    - Objects are read through their own properties: a read of a name an
      object does not own yields [VUndefined], so a reference whose walk
      names a member inherited from a built-in prototype (constructor,
      toString, ...) where no own property has that name is outside the
      model; [references_own] singles out the references that the model
      reads as the engine does.  An assignment under the name __proto__
      reaches the prototype setter and creates no own property:
      [assign_prop].  The text of an object is [object Object], as the
      inherited method gives it: an object that owns a property named
      toString is outside the model where its text is taken;
      [prints_as_text] singles out the documents without such an object.
    - A call either returns ([Ret]), raises ([Raise]), or needs more nested
      calls than the fuel allows ([OutOfFuel]).  The wall-clock reading used
      for date-time placeholders is the parameter [now]. *)

From Stdlib Require Import List String Ascii ZArith NArith Bool Arith Lia DecimalString.
Import ListNotations.
Open Scope string_scope.

(** ** Values *)

Unset Elimination Schemes.
Inductive value : Type :=
| VUndefined
| VNull
| VBool (b : bool)
| VNum (n : Z)
| VStr (s : string)
| VArr (items : list value)
| VObj (fields : list (string * value)).
Set Elimination Schemes.

Definition props := list (string * value).

(** Induction over a document with the hypotheses for the nested lists. *)
Section ValueInd.
Variable P : value -> Prop.
Hypothesis Hundef : P VUndefined.
Hypothesis Hnull : P VNull.
Hypothesis Hbool : forall b, P (VBool b).
Hypothesis Hnum : forall n, P (VNum n).
Hypothesis Hstr : forall s, P (VStr s).
Hypothesis Harr : forall l, Forall P l -> P (VArr l).
Hypothesis Hobj : forall m, Forall (fun kv => P (snd kv)) m -> P (VObj m).

Fixpoint value_ind (v : value) : P v :=
  match v with
  | VUndefined => Hundef
  | VNull => Hnull
  | VBool b => Hbool b
  | VNum n => Hnum n
  | VStr s => Hstr s
  | VArr l =>
      Harr l ((fix all (l : list value) : Forall P l :=
                 match l with
                 | [] => Forall_nil P
                 | x :: r => Forall_cons x (value_ind x) (all r)
                 end) l)
  | VObj m =>
      Hobj m ((fix all (m : props) : Forall (fun kv => P (snd kv)) m :=
                 match m with
                 | [] => Forall_nil _
                 | kv :: r => Forall_cons kv (value_ind (snd kv)) (all r)
                 end) m)
  end.
End ValueInd.

(** ** Outcomes of a call *)

Inductive error : Type :=
| TypeError      (* a read on undefined or null, or a call of a non-function *)
| InvalidJSON.   (* Error: Invalid JSON format *)

Inductive result (A : Type) : Type :=
| Ret (a : A)
| Raise (e : error)
| OutOfFuel.
Arguments Ret {A} a.
Arguments Raise {A} e.
Arguments OutOfFuel {A}.

Definition bind {A B} (m : result A) (f : A -> result B) : result B :=
  match m with
  | Ret a => f a
  | Raise e => Raise e
  | OutOfFuel => OutOfFuel
  end.

Notation "x <- m ;; k" := (bind m (fun x => k))
  (at level 61, m at next level, right associativity).

(** A loop body run over the elements of a list, left to right, threading the
    accumulator; the first raise ends the loop. *)
Fixpoint forEach {A S} (body : S -> A -> result S) (l : list A) (s : S) : result S :=
  match l with
  | [] => Ret s
  | x :: r => s' <- body s x ;; forEach body r s'
  end.

Definition returned {A} (r : result A) : Prop := exists a, r = Ret a.
Definition terminates {A} (r : result A) : Prop := r <> OutOfFuel.

(** ** Text *)

Definition chr (n : nat) : string := String (ascii_of_nat n) EmptyString.
Definition dq : string := chr 34.
Definition bsl : string := chr 92.
Definition nl : string := chr 10.
Definition bq : string := chr 96.

Fixpoint join (sep : string) (l : list string) : string :=
  match l with
  | [] => ""
  | [x] => x
  | x :: r => x ++ sep ++ join sep r
  end.

Fixpoint repeat_str (s : string) (n : nat) : string :=
  match n with
  | O => ""
  | S n => s ++ repeat_str s n
  end.

Fixpoint drop (n : nat) (s : string) : string :=
  match n, s with
  | O, _ => s
  | S n, String _ r => drop n r
  | S _, EmptyString => EmptyString
  end.

(** [s.replace(pat, rep)] with a text pattern: the first occurrence only. *)
Fixpoint replace_first (pat rep s : string) : string :=
  if prefix pat s then rep ++ drop (String.length pat) s
  else match s with
       | EmptyString => EmptyString
       | String c r => String c (replace_first pat rep r)
       end.

(** [s.split(sep)] for a one-character separator. *)
Fixpoint split (sep : ascii) (s : string) : list string :=
  match s with
  | EmptyString => [""]
  | String c r =>
      if Ascii.eqb c sep then "" :: split sep r
      else match split sep r with
           | [] => [String c ""]
           | x :: xs => String c x :: xs
           end
  end.

(** [s.includes(t)] on texts. *)
Fixpoint str_includes (t s : string) : bool :=
  prefix t s ||
  match s with
  | EmptyString => false
  | String _ r => str_includes t r
  end.

Definition map_string (f : ascii -> ascii) : string -> string :=
  fix go (s : string) : string :=
    match s with
    | EmptyString => EmptyString
    | String c r => String (f c) (go r)
    end.

Definition lower_ascii (c : ascii) : ascii :=
  let n := nat_of_ascii c in
  if (65 <=? n)%nat && (n <=? 90)%nat then ascii_of_nat (n + 32) else c.

Definition upper_ascii (c : ascii) : ascii :=
  let n := nat_of_ascii c in
  if (97 <=? n)%nat && (n <=? 122)%nat then ascii_of_nat (n - 32) else c.

Definition toLowerCase : string -> string := map_string lower_ascii.
Definition toUpperCase : string -> string := map_string upper_ascii.

Definition Z_to_string (z : Z) : string := NilZero.string_of_int (Z.to_int z).
Definition index_key (i : nat) : string := NilEmpty.string_of_uint (Nat.to_uint i).

(** ** Array indices among property names *)

Definition digit_of (c : ascii) : option N :=
  let n := N_of_ascii c in
  if ((48 <=? n) && (n <=? 57))%N then Some (n - 48)%N else None.

Fixpoint digits_value (s : string) (acc : N) : option N :=
  match s with
  | EmptyString => Some acc
  | String c r =>
      match digit_of c with
      | Some d => digits_value r (acc * 10 + d)%N
      | None => None
      end
  end.

(** A property name is an array index when it is the canonical decimal
    numeral of an integer below 2^32 - 1. *)
Definition array_index (s : string) : option N :=
  match s with
  | EmptyString => None
  | String c r =>
      if Ascii.eqb c "0"
      then match r with EmptyString => Some 0%N | _ => None end
      else match digits_value s 0 with
           | Some n => if (n <? 4294967295)%N then Some n else None
           | None => None
           end
  end.

(** ** The engine's operations on values *)

(** Truthiness: what [if (v)], [!v], [a || b] and [a && b] test. *)
Definition truthy (v : value) : bool :=
  match v with
  | VUndefined | VNull => false
  | VBool b => b
  | VNum n => negb (n =? 0)%Z
  | VStr s => negb (s =? "")
  | VArr _ | VObj _ => true
  end.

(** [a || b] *)
Definition or_else (a b : value) : value := if truthy a then a else b.

(** [v !== undefined] *)
Definition is_defined (v : value) : bool :=
  match v with VUndefined => false | _ => true end.

(** [v === 'text'] *)
Definition is_str (t : string) (v : value) : bool :=
  match v with VStr s => s =? t | _ => false end.

(** [typeof v === 'object' && v !== null] *)
Definition is_object (v : value) : bool :=
  match v with VArr _ | VObj _ => true | _ => false end.

(** [Array.isArray(v)] *)
Definition isArray (v : value) : bool :=
  match v with VArr _ => true | _ => false end.

Fixpoint lookup (k : string) (m : props) : option value :=
  match m with
  | [] => None
  | (k', v) :: r => if k' =? k then Some v else lookup k r
  end.

Definition has_key (k : string) (m : props) : bool :=
  match lookup k m with Some _ => true | None => false end.

Definition keys (m : props) : list string := map fst m.

Fixpoint indexed_from {A} (i : nat) (l : list A) : list (string * A) :=
  match l with
  | [] => []
  | x :: r => (index_key i, x) :: indexed_from (S i) r
  end.

Definition chars (s : string) : list value :=
  map (fun c => VStr (String c "")) (list_ascii_of_string s).

(** The own enumerable properties of a value that is not undefined or null:
    the fields of an object, the elements of an array and the units of a text
    under their indices, nothing for a number or a boolean. *)
Definition own_entries (v : value) : props :=
  match v with
  | VObj m => m
  | VArr l => indexed_from 0 l
  | VStr s => indexed_from 0 (chars s)
  | _ => []
  end.

Definition elements (v : value) : list value :=
  match v with
  | VArr l => l
  | VStr s => chars s
  | _ => []
  end.

(** [v[k]] on a value that is not undefined or null. *)
Definition prop (v : value) (k : string) : value :=
  match v with
  | VObj m => match lookup k m with Some x => x | None => VUndefined end
  | VArr _ | VStr _ =>
      if k =? "length" then VNum (Z.of_nat (List.length (elements v)))
      else match array_index k with
           | Some i => nth (N.to_nat i) (elements v) VUndefined
           | None => VUndefined
           end
  | _ => VUndefined
  end.

(** [v.k] and [v[k]]: a TypeError on undefined and null. *)
Definition get (v : value) (k : string) : result value :=
  match v with
  | VUndefined | VNull => Raise TypeError
  | _ => Ret (prop v k)
  end.

(** [v?.k] and [v?.[k]] *)
Definition opt (v : value) (k : string) : value :=
  match v with
  | VUndefined | VNull => VUndefined
  | _ => prop v k
  end.

(** [Object.entries(v)] and [Object.keys(v)] *)
Definition Object_entries (v : value) : result props :=
  match v with
  | VUndefined | VNull => Raise TypeError
  | _ => Ret (own_entries v)
  end.

Definition Object_keys (v : value) : result (list string) :=
  m <- Object_entries v ;; Ret (keys m).

(** [a.forEach(...)] and [a.map(...)] exist on arrays only. *)
Definition as_array (v : value) : result (list value) :=
  match v with
  | VArr l => Ret l
  | _ => Raise TypeError
  end.

(** [r.includes(key)] with a text [key]: membership in an array, containment
    in a text, a TypeError on anything else. *)
Definition includes (r : value) (key : string) : result bool :=
  match r with
  | VArr l => Ret (existsb (is_str key) l)
  | VStr s => Ret (str_includes key s)
  | _ => Raise TypeError
  end.

(** Creating or overwriting an own property.  An existing key keeps its
    place; a new array-index key goes among the index keys in ascending
    order; any other new key goes last. *)
Fixpoint overwrite (k : string) (v : value) (m : props) : props :=
  match m with
  | [] => []
  | (k', v') :: r => if k' =? k then (k, v) :: r else (k', v') :: overwrite k v r
  end.

Fixpoint insert_index (i : N) (k : string) (v : value) (m : props) : props :=
  match m with
  | [] => [(k, v)]
  | (k', v') :: r =>
      match array_index k' with
      | Some j => if (j <? i)%N then (k', v') :: insert_index i k v r
                  else (k, v) :: m
      | None => (k, v) :: m
      end
  end.

Definition define_prop (m : props) (k : string) (v : value) : props :=
  if has_key k m then overwrite k v m
  else match array_index k with
       | Some i => insert_index i k v m
       | None => (m ++ [(k, v)])%list
       end.

(** [obj[k] = v] on an object created by a literal.  The name __proto__
    reaches the setter inherited from the built-in prototype, which replaces
    the prototype of [obj] when [v] is an object or null and does nothing
    otherwise: in both cases no own property is created, and nothing the
    engine later does with [obj] (listing its keys, copying or serializing
    its own properties) sees the prototype.  Any other name creates or
    overwrites an own property. *)
Definition assign_prop (m : props) (k : string) (v : value) : props :=
  if k =? "__proto__" then m else define_prop m k v.

(** [{ ...a, ...b }]: a fresh object receiving the own properties of each
    operand in turn; every name, __proto__ included, becomes an own
    property. *)
Definition copy_into (acc : props) (v : value) : props :=
  fold_left (fun o kv => define_prop o (fst kv) (snd kv)) (own_entries v) acc.

Definition spread (a b : value) : props :=
  copy_into (copy_into [] a) b.

(** ** Conversion to text *)

(** The text of a value inside a template literal. *)
Fixpoint ToString (v : value) : string :=
  match v with
  | VUndefined => "undefined"
  | VNull => "null"
  | VBool true => "true"
  | VBool false => "false"
  | VNum n => Z_to_string n
  | VStr s => s
  | VArr l =>
      join "," ((fix each (l : list value) : list string :=
                   match l with
                   | [] => []
                   | x :: r =>
                       match x with
                       | VUndefined | VNull => ""
                       | _ => ToString x
                       end :: each r
                   end) l)
  | VObj _ => "[object Object]"
  end.

(** The text [Array.prototype.join] gives an element. *)
Definition join_item (v : value) : string :=
  match v with
  | VUndefined | VNull => ""
  | _ => ToString v
  end.

Definition hex_digit (n : nat) : string :=
  chr (if (n <? 10)%nat then 48 + n else 87 + n).

Definition quote_char (c : ascii) : string :=
  let n := nat_of_ascii c in
  if (n =? 34)%nat then bsl ++ dq
  else if (n =? 92)%nat then bsl ++ bsl
  else if (n =? 8)%nat then bsl ++ "b"
  else if (n =? 12)%nat then bsl ++ "f"
  else if (n =? 10)%nat then bsl ++ "n"
  else if (n =? 13)%nat then bsl ++ "r"
  else if (n =? 9)%nat then bsl ++ "t"
  else if (n <? 32)%nat then bsl ++ "u00" ++ hex_digit (n / 16) ++ hex_digit (n mod 16)
  else String c "".

Fixpoint quote_body (s : string) : string :=
  match s with
  | EmptyString => ""
  | String c r => quote_char c ++ quote_body r
  end.

Definition quote (s : string) : string := dq ++ quote_body s ++ dq.

Definition wrap (open close gap indent inner : string) (parts : list string) : string :=
  match parts with
  | [] => open ++ close
  | _ =>
      if gap =? "" then open ++ join "," parts ++ close
      else open ++ nl ++ inner ++ join ("," ++ nl ++ inner) parts ++ nl ++ indent ++ close
  end.

(** [JSON.stringify]: [None] is the undefined it returns for undefined.
    [gap] is the indentation unit, [indent] the current indentation. *)
Fixpoint serialize (gap indent : string) (v : value) {struct v} : option string :=
  match v with
  | VUndefined => None
  | VNull => Some "null"
  | VBool true => Some "true"
  | VBool false => Some "false"
  | VNum n => Some (Z_to_string n)
  | VStr s => Some (quote s)
  | VArr l =>
      let inner := indent ++ gap in
      Some (wrap "[" "]" gap indent inner
              ((fix each (l : list value) : list string :=
                  match l with
                  | [] => []
                  | x :: r =>
                      match serialize gap inner x with
                      | Some s => s
                      | None => "null"
                      end :: each r
                  end) l))
  | VObj m =>
      let inner := indent ++ gap in
      Some (wrap "{" "}" gap indent inner
              ((fix each (m : props) : list string :=
                  match m with
                  | [] => []
                  | kv :: r =>
                      match serialize gap inner (snd kv) with
                      | Some s =>
                          (quote (fst kv) ++ ":" ++ (if gap =? "" then "" else " ") ++ s)
                            :: each r
                      | None => each r
                      end
                  end) m))
  end.

(** [JSON.stringify(v)] and [JSON.stringify(v, null, 2)] *)
Definition JSON_stringify (v : value) : option string := serialize "" "" v.
Definition JSON_stringify2 (v : value) : option string := serialize "  " "" v.

(** An optional text inside a template literal, and as an element of the
    joined lines. *)
Definition tpl (o : option string) : string :=
  match o with Some s => s | None => "undefined" end.

Definition line_of (o : option string) : string :=
  match o with Some s => s | None => "" end.

(** ** Reference resolution

    Both the synthesizer and the describer resolve a reference in place:
    [schema.$ref.replace('#/', '').split('/')], then [target = target?.[segment]]
    for each segment, starting from the root document. *)

Definition ref_text (r : value) : result string :=
  match r with
  | VStr s => Ret s            (* only a text has [replace] *)
  | _ => Raise TypeError
  end.

Definition refPath (ref : string) : list string :=
  split "/" (replace_first "#/" "" ref).

Definition walk (root : value) (segments : list string) : value :=
  fold_left opt segments root.

Definition resolve (root : value) (ref : string) : value :=
  walk root (refPath ref).

(** ** The example synthesizer and the schema describer *)

Section Engine.

Variable now : string.   (* [new Date().toISOString()] *)

(** The loop body of the allOf merge (lines 183-186). *)
Definition merge_child (merged : props) (ex : value) : props :=
  if is_object ex then spread (VObj merged) ex else merged.

(** The final switch on the type (lines 219-231). *)
Definition primitive_example (schema : value) : value :=
  let type := prop schema "type" in
  if is_str "string" type then
    if is_str "date-time" (prop schema "format") then VStr now
    else if is_str "uri" (prop schema "format") then VStr "https://example.com"
    else VStr "string"
  else if is_str "integer" type || is_str "number" type then VNum 0
  else if is_str "boolean" type then VBool true
  else VNull.

(** The loop body of the allOf merge with its call (lines 183-186), and the
    loop body of the object branch (lines 206-209); [self] stands for the
    recursive calls of [generateExample]. *)
Definition merge_step (self : value -> value -> bool -> result value)
  (root : value) (onlyRequired : bool) (merged : props) (sub : value) : result props :=
  ex <- self sub root onlyRequired ;;
  Ret (merge_child merged ex).

Definition add_property (self : value -> value -> bool -> result value)
  (root : value) (onlyRequired : bool) (required : value)
  (obj : props) (kv : string * value) : result props :=
  skip <- (if onlyRequired
           then listed <- includes required (fst kv) ;; Ret (negb listed)
           else Ret false) ;;
  if (skip : bool) then Ret obj
  else ex <- self (snd kv) root onlyRequired ;;
       Ret (assign_prop obj (fst kv) ex).

(** The body of [generateExample]. *)
Definition generateExample_body (self : value -> value -> bool -> result value)
  (schema root : value) (onlyRequired : bool) : result value :=
  if negb (truthy schema) then Ret VUndefined
  else if truthy (prop schema "$ref") then
    ref <- ref_text (prop schema "$ref") ;;
    let target := resolve root ref in
    if truthy target then self target root onlyRequired
    else Ret VUndefined
  else if truthy (prop schema "allOf") then
    subs <- as_array (prop schema "allOf") ;;
    merged <- forEach (merge_step self root onlyRequired) subs [] ;;
    Ret (VObj merged)
  else if truthy (prop schema "anyOf") || truthy (prop schema "oneOf") then
    self
      (prop (or_else (prop schema "anyOf") (prop schema "oneOf")) "0")
      root onlyRequired
  else if is_defined (prop schema "example") then Ret (prop schema "example")
  else if is_defined (prop schema "default") then Ret (prop schema "default")
  else if is_str "object" (prop schema "type") || truthy (prop schema "properties") then
    let properties := or_else (prop schema "properties") (VObj []) in
    let required := or_else (prop schema "required") (VArr []) in
    obj <- forEach (add_property self root onlyRequired required)
             (own_entries properties) [] ;;
    Ret (VObj obj)
  else if is_str "array" (prop schema "type") then
    ex <- self (prop schema "items") root onlyRequired ;;
    Ret (VArr [ex])
  else if truthy (prop schema "enum") then Ret (prop (prop schema "enum") "0")
  else Ret (primitive_example schema).

Fixpoint generateExample (fuel : nat) : value -> value -> bool -> result value :=
  match fuel with
  | O => fun _ _ _ => OutOfFuel
  | S fuel => generateExample_body (generateExample fuel)
  end.

Definition indent (depth : nat) : string := repeat_str "  " depth.

Definition push (lines : list string) (l : string) : list string :=
  (lines ++ [l])%list.

(** The metadata fragments shared by the three places that print them:
    format, min, max, default and enum, in this order. *)
Definition enum_text (enums : value) : string :=
  ", enum: [" ++
  join ", " (map (fun e => bq ++ tpl (JSON_stringify e) ++ bq) (elements enums)) ++ "]".

Definition meta_tail (format min max def enums : value) : string :=
  (if truthy format then ", format: " ++ bq ++ ToString format ++ bq else "") ++
  (if is_defined min then ", min: " ++ bq ++ ToString min ++ bq else "") ++
  (if is_defined max then ", max: " ++ bq ++ ToString max ++ bq else "") ++
  (if is_defined def then ", default: " ++ bq ++ tpl (JSON_stringify def) ++ bq else "") ++
  (if truthy enums && isArray enums then enum_text enums else "").

Definition description_suffix (v : value) : string :=
  if truthy (prop v "description") then ": " ++ ToString (prop v "description") else "".

(** The line of one property of an object schema (lines 267-287). *)
Definition property_line (depth : nat) (key : string) (isRequired : bool) (val : value)
  : string :=
  let type := or_else (prop val "type")
                (if truthy (prop val "$ref") then VStr "object" else VStr "unknown") in
  let metadata :=
    bq ++ ToString type ++ bq ++
    meta_tail (prop val "format") (prop val "minimum") (prop val "maximum")
              (prop val "default") (prop val "enum") ++
    (if is_defined (prop val "example")
     then ", example: " ++ bq ++ tpl (JSON_stringify (prop val "example")) ++ bq else "") in
  indent depth ++ "- " ++ bq ++ key ++ bq ++ " [" ++
  (if isRequired then "**Required**" else "Optional") ++ "] (" ++ metadata ++ ")" ++
  description_suffix val.

Definition placeholder_line (depth : nat) (ref : string) : string :=
  indent depth ++ "- " ++ bq ++ "Ref: " ++ ref ++ bq.

Definition composition_label (schema : value) : string :=
  if truthy (prop schema "allOf") then "All of:"
  else if truthy (prop schema "anyOf") then "Any of:" else "One of:".

(** The loop body of the object branch of the describer (lines 266-295);
    [self] stands for the recursive calls of [parseSchema]. *)
Definition describe_property
  (self : value -> value -> list string -> nat -> result (list string))
  (root : value) (depth : nat) (requiredFields : value)
  (lines : list string) (kv : string * value) : result (list string) :=
  let key := fst kv in
  let val := snd kv in
  isRequired <- includes requiredFields key ;;
  _ <- get val "type" ;;
  let lines := push lines (property_line depth key isRequired val) in
  if is_str "object" (prop val "type") || truthy (prop val "properties")
     || truthy (prop val "$ref")
  then self val root lines (depth + 1)
  else if is_str "array" (prop val "type") && truthy (prop val "items")
  then self (prop val "items") root
         (push lines (indent (depth + 1) ++ "*Items:*")) (depth + 2)
  else Ret lines.

(** The body of [parseSchema]. *)
Definition parseSchema_body
  (self : value -> value -> list string -> nat -> result (list string))
  (schema root : value) (lines : list string) (depth : nat) : result (list string) :=
  if negb (truthy schema) then Ret lines
  else if truthy (prop schema "$ref") then
    ref <- ref_text (prop schema "$ref") ;;
    let target := resolve root ref in
    if truthy target then self target root lines depth
    else Ret (push lines (placeholder_line depth ref))
  else if truthy (prop schema "allOf") || truthy (prop schema "anyOf")
          || truthy (prop schema "oneOf") then
    let lines := push lines (indent depth ++ "- *" ++ composition_label schema ++ "*") in
    let subSchemas := or_else (prop schema "allOf")
                        (or_else (prop schema "anyOf") (prop schema "oneOf")) in
    subs <- as_array subSchemas ;;
    forEach (fun lines sub => self sub root lines (depth + 1)) subs lines
  else if is_str "object" (prop schema "type") || truthy (prop schema "properties") then
    let properties := or_else (prop schema "properties") (VObj []) in
    let requiredFields := or_else (prop schema "required") (VArr []) in
    forEach (describe_property self root depth requiredFields)
      (own_entries properties) lines
  else if is_str "array" (prop schema "type") && truthy (prop schema "items") then
    let metadata :=
      "array" ++ (if is_defined (prop schema "default")
                  then ", default: " ++ bq ++ tpl (JSON_stringify (prop schema "default")) ++ bq
                  else "") in
    let lines := push lines (indent depth ++ "- " ++ bq ++ "Array" ++ bq ++ " (" ++ metadata
                             ++ ")" ++ description_suffix schema) in
    self (prop schema "items") root lines (depth + 1)
  else if truthy (prop schema "type") then
    let metadata :=
      bq ++ ToString (prop schema "type") ++ bq ++
      meta_tail (prop schema "format") (prop schema "minimum") (prop schema "maximum")
                (prop schema "default") (prop schema "enum") in
    Ret (push lines (indent depth ++ "- (" ++ metadata ++ ")" ++ description_suffix schema))
  else Ret lines.

Fixpoint parseSchema (fuel : nat)
  : value -> value -> list string -> nat -> result (list string) :=
  match fuel with
  | O => fun _ _ _ _ => OutOfFuel
  | S fuel => parseSchema_body (parseSchema fuel)
  end.

(** ** The document assembler *)

(** [v > 0] and [v === 0] on the value of a [length] property.  A text or a
    container compares through its numeric reading, taken here for plain
    decimal numerals only. *)
Definition numeral_gt_zero (s : string) : bool :=
  match digits_value s 0 with
  | Some n => (0 <? n)%N
  | None => false
  end.

Definition gt_zero (v : value) : bool :=
  match v with
  | VNum n => (0 <? n)%Z
  | VBool b => b
  | VStr s => numeral_gt_zero s
  | VArr _ | VObj _ => numeral_gt_zero (ToString v)
  | _ => false
  end.

Definition is_zero (v : value) : bool :=
  match v with VNum n => (n =? 0)%Z | _ => false end.

Definition http_methods : list string :=
  ["get"; "post"; "put"; "delete"; "patch"; "options"; "head"].

Definition is_http_method (lowerMethod : string) : bool :=
  existsb (String.eqb lowerMethod) http_methods.

(** [content['application/json']?.schema || content['*/*']?.schema
     || (Object.values(content)[0])?.schema] on a truthy [content]. *)
Definition content_schema (content : value) : value :=
  or_else (opt (prop content "application/json") "schema")
    (or_else (opt (prop content "*/*") "schema")
       (opt (hd VUndefined (map snd (own_entries content))) "schema")).

(** One entry of the parameter list (lines 46-65). *)
Definition parameter_line (p : value) : result string :=
  s <- get p "schema" ;;
  let schema := or_else s (VObj []) in
  let type := or_else (prop schema "type") (or_else (prop p "type") (VStr "unknown")) in
  let def := if is_defined (prop schema "default") then prop schema "default"
             else prop p "default" in
  let enums := or_else (prop schema "enum") (prop p "enum") in
  let format := or_else (prop schema "format") (prop p "format") in
  let min := if is_defined (prop schema "minimum") then prop schema "minimum"
             else prop p "minimum" in
  let max := if is_defined (prop schema "maximum") then prop schema "maximum"
             else prop p "maximum" in
  let metadata := ToString (prop p "in") ++ ", " ++ bq ++ ToString type ++ bq ++
                  meta_tail format min max def enums in
  let reqStr := if truthy (prop p "required") then "**Required**" else "Optional" in
  Ret ("- " ++ bq ++ ToString (prop p "name") ++ bq ++ " [" ++ reqStr ++ "] (" ++ metadata
       ++ "): " ++ ToString (or_else (prop p "description") (VStr "No description"))).

(** The example chosen for a response before synthesis is tried (line 123):
    [content['application/json']?.example
     || content['application/json']?.examples?.[0]?.value]. *)
Definition declared_response_example (content : value) : value :=
  let json := prop content "application/json" in
  or_else (opt json "example") (opt (opt (opt json "examples") "0") "value").

(** The value of the Example Response block (line 123); the synthesizer runs
    only when no declared example is found. *)
Definition response_example (fuel : nat) (spec content jsonSchema : value) : result value :=
  if truthy (declared_response_example content)
  then Ret (declared_response_example content)
  else generateExample fuel jsonSchema spec false.

(** The four lines of the Example Response block (lines 125-128). *)
Definition example_response_lines (respEx : value) : list string :=
  [ "  **Example Response**:";
    "  ```json";
    join nl (map (fun l => "  " ++ l)
               (split (ascii_of_nat 10) (tpl (JSON_stringify2 respEx))));
    "  ```" ].

(** One response (lines 112-136). *)
Definition response_block (fuel : nat) (spec : value) (lines : list string)
  (code : string) (response : value) : result (list string) :=
  d <- get response "description" ;;
  let desc := or_else d (VStr "No description") in
  let lines := push lines ("**Response " ++ code ++ ": " ++ ToString desc ++ "**") in
  let content := or_else (prop response "content") (VObj []) in
  let jsonSchema := content_schema content in
  lines <-
    (if truthy jsonSchema then
       lines <- parseSchema fuel jsonSchema spec lines 1 ;;
       respEx <- response_example fuel spec content jsonSchema ;;
       if truthy respEx then
         ks <- Object_keys respEx ;;
         if (0 <? List.length ks)%nat then Ret (lines ++ example_response_lines respEx)%list
         else Ret lines
       else Ret lines
     else if truthy (prop response "$ref") then parseSchema fuel response spec lines 1
     else Ret (push lines "  - No response body schema defined.")) ;;
  Ret (push lines "").

(** The parameter list of an operation (lines 43-66). *)
Definition parameters_section (parameters : value) (lines : list string)
  : result (list string) :=
  if gt_zero (prop parameters "length") then
    ps <- as_array parameters ;;
    forEach (fun lines p => l <- parameter_line p ;; Ret (push lines l))
      ps (push lines "**Parameters:**")
  else Ret lines.

(** The request body of an operation (lines 68-80): the lines and the value
    of [bodySchema]. *)
Definition request_body_section (fuel : nat) (spec requestBody : value) (lines : list string)
  : result (list string * value) :=
  if truthy requestBody then
    let lines := push lines "**Request Body:**" in
    let content := or_else (prop requestBody "content") (VObj []) in
    let bodySchema := content_schema content in
    if truthy bodySchema then
      lines <- parseSchema fuel bodySchema spec lines 0 ;; Ret (lines, bodySchema)
    else
      let types := join ", " (keys (own_entries content)) in
      Ret (push lines ("- *Content types: " ++ (if types =? "" then "Unknown" else types)
                       ++ " (No schema defined)*"), bodySchema)
  else Ret (lines, VNull).

(** The examples of the input (lines 88-105). *)
Definition input_examples (fuel : nat) (spec bodySchema : value) (lines : list string)
  : result (list string) :=
  if truthy bodySchema then
    requiredEx <- generateExample fuel bodySchema spec true ;;
    fullEx <- generateExample fuel bodySchema spec false ;;
    ks <- Object_keys requiredEx ;;
    let lines :=
      if (0 <? List.length ks)%nat then
        (lines ++ [ "**Required Parameters Example**:";
                    "```json";
                    line_of (JSON_stringify2 requiredEx);
                    "```";
                    "" ])%list
      else lines in
    Ret (lines ++ [ "**Full Example**:";
                    "```json";
                    line_of (JSON_stringify2 fullEx);
                    "```";
                    "" ])%list
  else Ret lines.

(** The responses of an operation (lines 108-139). *)
Definition output_section (fuel : nat) (spec responses : value) (lines : list string)
  : result (list string) :=
  if (0 <? List.length (own_entries responses))%nat then
    forEach (fun lines kv => response_block fuel spec lines (fst kv) (snd kv))
      (own_entries responses) lines
  else Ret (push lines "- No response documentation provided.").

(** The cURL command (lines 146-150). *)
Definition curl_command (fuel : nat) (spec baseUrl : value) (path method : string)
  (bodySchema : value) : result string :=
  let curlCmd := "curl --request " ++ toUpperCase method ++ " " ++ bsl ++ nl ++
                 "  --url " ++ ToString baseUrl ++ path ++ " " ++ bsl ++ nl ++
                 "  --header " ++ dq ++ "Content-Type: application/json" ++ dq in
  if truthy bodySchema then
    reqEx <- generateExample fuel bodySchema spec true ;;
    Ret (curlCmd ++ " " ++ bsl ++ nl ++ "  --data '" ++ tpl (JSON_stringify2 reqEx) ++ "'")
  else Ret curlCmd.

(** One operation (lines 33-156). *)
Definition operation_block (fuel : nat) (spec baseUrl : value) (path method : string)
  (op : value) (lines : list string) : result (list string) :=
  s <- get op "summary" ;;
  let summary := or_else s (or_else (prop op "operationId") (VStr "No summary")) in
  let lines := push lines ("### " ++ toUpperCase method ++ " " ++ path ++ " - "
                           ++ ToString summary) in
  let lines := if truthy (prop op "description")
               then push lines (join_item (prop op "description")) else lines in
  let lines := push (push lines "") "#### Input" in
  let parameters := or_else (prop op "parameters") (VArr []) in
  lines <- parameters_section parameters lines ;;
  let requestBody := prop op "requestBody" in
  st <- request_body_section fuel spec requestBody lines ;;
  let lines := fst st in
  let bodySchema := snd st in
  let lines := if is_zero (prop parameters "length") && negb (truthy requestBody)
               then push lines "- No input parameters required." else lines in
  let lines := push lines "" in
  lines <- input_examples fuel spec bodySchema lines ;;
  let lines := push lines "#### Output" in
  let responses := or_else (prop op "responses") (VObj []) in
  lines <- output_section fuel spec responses lines ;;
  let lines := (lines ++ ["#### Usage Examples"; ""; "##### cURL"; "```bash"])%list in
  curlCmd <- curl_command fuel spec baseUrl path method bodySchema ;;
  Ret (lines ++ [curlCmd; "```"; ""; "---"; ""])%list.

(** The title line and the summary line (lines 18-19). *)
Definition title_line (info : value) : string :=
  "# " ++ ToString (or_else (prop info "title") (VStr "API Documentation")).

Definition summary_line (info : value) : string :=
  ToString (or_else (prop info "description") (VStr "No description provided.")).

(** The conversion of a decoded document (lines 15-161). *)
Definition convert (fuel : nat) (spec : value) : result string :=
  info <- get spec "info" ;;
  _ <- get info "title" ;;
  let lines := [title_line info; summary_line info; ""; "## Endpoints"; ""] in
  let paths := or_else (prop spec "paths") (VObj []) in
  let baseUrl := or_else (opt (opt (prop spec "servers") "0") "url")
                   (VStr "https://api.example.com") in
  lines <-
    forEach (fun lines pm =>
               methods <- Object_entries (snd pm) ;;
               forEach (fun lines md =>
                          if is_http_method (toLowerCase (fst md))
                          then operation_block fuel spec baseUrl (fst pm) (fst md) (snd md) lines
                          else Ret lines)
                 methods lines)
      (own_entries paths) lines ;;
  Ret (join nl lines).

(** [localConvertToLlmTxt]: the decoder is the engine's [JSON.parse], here a
    parameter; a text it rejects raises the invalid-input error. *)
Variable JSON_parse : string -> option value.

Definition localConvertToLlmTxt (fuel : nat) (jsonContent : string) : result string :=
  match JSON_parse jsonContent with
  | None => Raise InvalidJSON
  | Some spec => convert fuel spec
  end.

End Engine.

Open Scope list_scope.

(** * Notions used to state the properties *)






(** The order in which the engine enumerates the own keys of an object:
    array indices first, ascending, then the other keys, none repeated.
    [precedes k1 k2] tells whether [k1] may come before [k2]. *)
Definition precedes (k1 k2 : string) : bool :=
  match array_index k1, array_index k2 with
  | Some i, Some j => (i <? j)%N
  | Some _, None => true
  | None, Some _ => false
  | None, None => negb (k1 =? k2)
  end.

Fixpoint key_order (ks : list string) : bool :=
  match ks with
  | [] => true
  | k :: r => forallb (precedes k) r && key_order r
  end.

(** An object node that reaches the object branch of the synthesizer: no
    $ref, no composition keyword, no example and no default of its own. *)
Definition object_node (schema : value) : bool :=
  negb (truthy (prop schema "$ref"))
  && negb (truthy (prop schema "allOf"))
  && negb (truthy (prop schema "anyOf"))
  && negb (truthy (prop schema "oneOf"))
  && negb (is_defined (prop schema "example"))
  && negb (is_defined (prop schema "default"))
  && (is_str "object" (prop schema "type") || truthy (prop schema "properties")).

(** The declared properties of a node, as the loop of line 206 sees them. *)
Definition declared (schema : value) : props :=
  own_entries (or_else (prop schema "properties") (VObj [])).

(** Whether the loop keeps a property, and whether the assignment of line
    208 then creates a key for it: every name but __proto__ does. *)
Definition kept (onlyRequired : bool) (reqs : list value) (k : string) : bool :=
  if onlyRequired then existsb (is_str k) reqs else true.

Definition own_name (k : string) : bool := negb (k =? "__proto__").

Definition assigned (onlyRequired : bool) (reqs : list value) (k : string) : bool :=
  kept onlyRequired reqs k && own_name k.

(** The size of a document: its number of containers. *)
Fixpoint size (v : value) : nat :=
  match v with
  | VArr l => S (list_sum (map size l))
  | VObj m => S (list_sum (map (fun kv => size (snd kv)) m))
  | _ => 0
  end.

(** The targets of the references carried by a value and by the values
    nested in it. *)
Fixpoint ref_targets (root v : value) : list value :=
  match v with
  | VObj m =>
      match lookup "$ref" m with
      | Some (VStr s) => [resolve root s]
      | _ => []
      end ++ flat_map (fun kv => ref_targets root (snd kv)) m
  | VArr l => flat_map (ref_targets root) l
  | _ => []
  end.

(** Every chain of references that starts in [v] ends within [d] hops. *)
Fixpoint ref_chains_within (d : nat) (root v : value) : bool :=
  match d with
  | O => match ref_targets root v with [] => true | _ => false end
  | S d => forallb (ref_chains_within d root) (ref_targets root v)
  end.

(** The values on which one call of the synthesizer (of the describer) may
    call itself. *)
Definition array_items (v : value) : list value :=
  match v with VArr l => l | _ => [] end.

Definition ref_target (root v : value) : list value :=
  match prop v "$ref" with VStr s => [resolve root s] | _ => [] end.

Definition calls_generateExample (root v : value) : list value :=
  ref_target root v ++ array_items (prop v "allOf")
  ++ [prop (or_else (prop v "anyOf") (prop v "oneOf")) "0"]
  ++ map snd (declared v) ++ [prop v "items"].

Definition calls_parseSchema (root v : value) : list value :=
  ref_target root v
  ++ array_items (or_else (prop v "allOf") (or_else (prop v "anyOf") (prop v "oneOf")))
  ++ flat_map (fun kv => [snd kv; prop (snd kv) "items"]) (declared v)
  ++ [prop v "items"].

(** [c] lies (strictly) below [v]: it is no larger and carries no reference
    that [v] does not carry. *)
Definition below (root c v : value) : Prop :=
  size c <= size v /\ incl (ref_targets root c) (ref_targets root v).

Definition strictly_below (root c v : value) : Prop :=
  size c < size v /\ incl (ref_targets root c) (ref_targets root v).

(** Neither recursion is cut short on [v] with this fuel. *)
Definition both_terminate (now : string) (root : value) (fuel : nat) (v : value) : Prop :=
  (forall b, terminates (generateExample now fuel v root b))
  /\ (forall lines depth, terminates (parseSchema fuel v root lines depth)).

(** [v] is undefined or null. *)
Definition is_nullish (v : value) : bool :=
  match v with VUndefined | VNull => true | _ => false end.

(** [out] is [lines] with further lines appended. *)
Definition extends (lines out : list string) : Prop := exists more, out = lines ++ more.

(** [r2] is [r1] unless [r1] was cut short. *)
Definition settles {A} (r1 r2 : result A) : Prop := r1 = OutOfFuel \/ r2 = r1.

(** * Sample documents *)

(** A reading of the clock. *)
Definition sample_now : string := "2026-01-01T00:00:00.000Z".

(** A request body, or the content part of a response, with one JSON schema. *)
Definition json_body (schema : value) : value :=
  VObj [("content", VObj [("application/json", VObj [("schema", schema)])])].

(** A document with a title, one path /x and one operation on it, followed
    by further top-level fields. *)
Definition one_operation (method : string) (op : props) (rest : props) : value :=
  VObj (("info", VObj [("title", VStr "T")])
        :: ("paths", VObj [("/x", VObj [(method, VObj op)])]) :: rest).

(** A schema that reaches itself: a node whose property refers to the node. *)
Definition node_ref : value := VObj [("$ref", VStr "#/components/schemas/Node")].

Definition node_schema : value :=
  VObj [("type", VStr "object"); ("properties", VObj [("child", node_ref)])].

Definition cyclic_doc : value :=
  one_operation "post" [("requestBody", json_body node_ref)]
    [("components", VObj [("schemas", VObj [("Node", node_schema)])])].

(** Schema-level anomalies: an empty schema, a schema of unknown type, a
    reference to a component the document lacks. *)
Definition empty_schema : value := VObj [].

Definition unknown_type_schema : value := VObj [("type", VStr "file")].

Definition missing_ref : value := VObj [("$ref", VStr "#/components/schemas/Foo")].

(** A document whose only operation has the schema as request body, and one
    whose only operation has it as the schema of its response 200. *)
Definition request_doc (schema : value) : value :=
  one_operation "post" [("requestBody", json_body schema)] [].

Definition response_doc (schema : value) : value :=
  one_operation "get"
    [("responses", VObj [("200", VObj (("description", VStr "ok") :: own_entries (json_body schema)))])]
    [].

(** A response whose content declares one named example. *)
Definition id_schema : value :=
  VObj [("type", VStr "object"); ("properties", VObj [("id", VObj [("type", VStr "integer")])])].

Definition named_examples_content : value :=
  VObj [("application/json",
         VObj [("schema", id_schema);
               ("examples", VObj [("ok", VObj [("value", VObj [("id", VNum 7)])])])])].

Definition named_examples_response : value :=
  VObj [("description", VStr "ok"); ("content", named_examples_content)].

Definition named_examples_doc : value :=
  one_operation "get" [("responses", VObj [("200", named_examples_response)])] [].

Definition string_schema : value := VObj [("type", VStr "string")].

(** Object nodes with an example, or a default, of their own. *)
Definition object_with_example : value :=
  VObj [("type", VStr "object");
        ("properties", VObj [("a", string_schema)]);
        ("example", VObj [("x", VNum 1)])].

Definition object_with_default : value :=
  VObj [("type", VStr "object");
        ("properties", VObj [("a", string_schema)]);
        ("default", VObj [])].

(** An object node that requires a property it does not declare, and one that
    also carries allOf. *)
Definition undeclared_required : value :=
  VObj [("type", VStr "object");
        ("properties", VObj [("a", string_schema)]);
        ("required", VArr [VStr "a"; VStr "b"])].

Definition object_with_allOf : value :=
  VObj [("type", VStr "object");
        ("properties", VObj [("a", string_schema)]);
        ("required", VArr [VStr "a"]);
        ("allOf", VArr [VObj [("type", VStr "object");
                              ("properties", VObj [("z", string_schema)]);
                              ("required", VArr [VStr "z"])]])].


Definition integer_schema : value := VObj [("type", VStr "integer")].



Definition proto_property_schema : value :=
  VObj [("type", VStr "object");
        ("properties", VObj [("a", integer_schema); ("__proto__", string_schema)]);
        ("required", VArr [VStr "__proto__"])].

(** An acyclic document: a request body that refers to a component. *)
Definition pet_schema : value :=
  VObj [("type", VStr "object");
        ("properties", VObj [("id", integer_schema); ("name", string_schema)]);
        ("required", VArr [VStr "id"])].


Definition pet_ref : value := VObj [("$ref", VStr "#/components/schemas/Pet")].

Definition pet_doc : value :=
  one_operation "post" [("requestBody", json_body pet_ref)]
    [("components", VObj [("schemas", VObj [("Pet", pet_schema)])])].






(** The end-to-end scenarios A and B of the specification. *)
Definition scenario_a : value :=
  VObj [("info", VObj [("title", VStr "T")]);
        ("paths",
         VObj [("/x",
                VObj [("get",
                       VObj [("responses",
                              VObj [("200", VObj [("description", VStr "ok")])])])])])].

Definition scenario_b_schema : value :=
  VObj [("type", VStr "object");
        ("properties", VObj [("a", string_schema); ("b", integer_schema)]);
        ("required", VArr [VStr "a"])].

(** * Further notions *)

(** [l] begins with the indentation of depth [d]. *)
Definition indented (d : nat) (l : string) : bool := prefix (indent d) l.

(** [out] is [lines] followed by lines indented to depth [d] at least. *)
Definition appends_at (d : nat) (lines out : list string) : Prop :=
  exists more, out = lines ++ more /\ Forall (fun l => indented d l = true) more.

(** A node that reaches the object branch of the describer: no $ref and
    no composition keyword, and an object type or a properties map. *)
Definition described_as_object (schema : value) : bool :=
  negb (truthy (prop schema "$ref"))
  && negb (truthy (prop schema "allOf"))
  && negb (truthy (prop schema "anyOf"))
  && negb (truthy (prop schema "oneOf"))
  && (is_str "object" (prop schema "type") || truthy (prop schema "properties")).

(** A property the describer prints on one line without descending into it:
    neither an object, a reference, nor an array with items. *)
Definition flat_property (val : value) : bool :=
  negb (is_nullish val)
  && negb (is_str "object" (prop val "type") || truthy (prop val "properties")
           || truthy (prop val "$ref"))
  && negb (is_str "array" (prop val "type") && truthy (prop val "items")).

(** The text contains the separator of reference segments. *)
Fixpoint has_slash (s : string) : bool :=
  match s with
  | EmptyString => false
  | String c r => Ascii.eqb c "/" || has_slash r
  end.

(** The outcome is not the invalid-input error. *)
Definition decoded {A} (r : result A) : Prop := r <> Raise InvalidJSON.

(** [v] is a text. *)
Definition is_text (v : value) : bool :=
  match v with VStr _ => true | _ => false end.

(** [v] is falsy or passes the test [p]. *)
Definition falsy_or (p : value -> bool) (v : value) : bool := negb (truthy v) || p v.

(** The keywords of one node have the kinds the two recursions rely on: a
    $ref is a text, the three composition keywords are lists, required is a
    list or a text, and no declared property is undefined or null. *)
Definition node_ok (v : value) : bool :=
  falsy_or is_text (prop v "$ref")
  && falsy_or isArray (prop v "allOf")
  && falsy_or isArray (prop v "anyOf")
  && falsy_or isArray (prop v "oneOf")
  && falsy_or (fun r => isArray r || is_text r) (prop v "required")
  && forallb (fun kv => negb (is_nullish (snd kv))) (declared v).

(** Every node of the document is. *)
Fixpoint well_formed (v : value) : bool :=
  node_ok v
  && match v with
     | VArr l => forallb well_formed l
     | VObj m => forallb (fun kv => well_formed (snd kv)) m
     | _ => true
     end.

(** A read [v?.[k]] that an own property answers, so that no member
    inherited from a built-in prototype is consulted: [v] is undefined or
    null, or an object that owns [k], or a list or a text of which [k] is
    the length or an index within bounds. *)
Definition own_step (v : value) (k : string) : bool :=
  match v with
  | VUndefined | VNull => true
  | VObj m => has_key k m
  | VArr _ | VStr _ =>
      (k =? "length")
      || match array_index k with
         | Some i => (N.to_nat i <? List.length (elements v))%nat
         | None => false
         end
  | _ => false
  end.

(** Every step of the walk along [segments] from [v] is such a read. *)
Fixpoint own_walk (v : value) (segments : list string) : bool :=
  match segments with
  | [] => true
  | s :: rest => own_step v s && own_walk (opt v s) rest
  end.

(** Every reference carried by [v], at any depth, walks the document
    [root] through own properties. *)
Fixpoint references_own (root v : value) : bool :=
  match v with
  | VObj m =>
      match lookup "$ref" m with
      | Some (VStr s) => own_walk root (refPath s)
      | _ => true
      end
      && forallb (fun kv => references_own root (snd kv)) m
  | VArr l => forallb (references_own root) l
  | _ => true
  end.

(** No object of [v], at any depth, owns a property named toString.  The
    text of such an object in a template literal is not [object Object]:
    the conversion finds the own property in place of the inherited method
    and raises. *)
Fixpoint prints_as_text (v : value) : bool :=
  match v with
  | VObj m => negb (has_key "toString" m) && forallb (fun kv => prints_as_text (snd kv)) m
  | VArr l => forallb prints_as_text l
  | _ => true
  end.

(** The outcome is not an error. *)
Definition raise_free {A} (r : result A) : Prop := forall e, r <> Raise e.

(** The operations the assembler writes, in the order of the document: for
    each path, the entries whose key is an accepted method once lower-cased. *)
Definition accepted_operations (spec : value) : list (string * string * value) :=
  flat_map (fun pm =>
              map (fun md => (fst pm, fst md, snd md))
                (filter (fun md => is_http_method (toLowerCase (fst md)))
                   (own_entries (snd pm))))
    (own_entries (or_else (prop spec "paths") (VObj []))).

(** The heading of an operation (lines 34-36): the summary falls back to the
    operationId and then to No summary. *)
Definition operation_heading (o : string * string * value) : string :=
  "### " ++ toUpperCase (snd (fst o)) ++ " " ++ fst (fst o) ++ " - "
  ++ ToString (or_else (prop (snd o) "summary")
                 (or_else (prop (snd o) "operationId") (VStr "No summary"))).

(** A block of lines opens with the heading of the operation and closes
    with the end of the cURL fence, an empty line, a rule and an empty line. *)
Definition framed (o : string * string * value) (block : list string) : Prop :=
  exists middle, block = operation_heading o :: middle ++ ["```"; ""; "---"; ""].

(** The base address of the cURL commands (line 27). *)
Definition base_url (spec : value) : value :=
  or_else (opt (opt (prop spec "servers") "0") "url") (VStr "https://api.example.com").

(** The outcome [r] with [lines] put before the lines it returns. *)
Definition prepend (lines : list string) (r : result (list string)) : result (list string) :=
  match r with
  | Ret more => Ret (lines ++ more)
  | Raise e => Raise e
  | OutOfFuel => OutOfFuel
  end.

(** A step that only appends to the lines it is given: what it appends, and
    whether it raises, does not depend on them. *)
Definition appends_only (f : list string -> result (list string)) : Prop :=
  forall lines, f lines = prepend lines (f []).

(** ** Further sample documents *)


(** An operation with a summary and nothing else. *)
Definition ping_operation : value := VObj [("summary", VStr "Ping")].

(** A response 200 whose schema is an integer. *)
Definition count_response : value :=
  VObj (("description", VStr "ok") :: own_entries (json_body integer_schema)).

(** An object node one of whose properties is null, and one whose required
    keyword is a boolean. *)
Definition null_property_schema : value :=
  VObj [("type", VStr "object");
        ("properties", VObj [("a", string_schema); ("b", VNull)])].

Definition boolean_required_schema : value :=
  VObj [("type", VStr "object");
        ("properties", VObj [("a", string_schema)]);
        ("required", VBool true)].



(** * Properties *)

Arguments generateExample : simpl never.
Arguments parseSchema : simpl never.

(** ** Loops and outcomes *)

Lemma bind_ret {A B} (m : result A) (f : A -> result B) b :
  bind m f = Ret b -> exists a, m = Ret a /\ f a = Ret b.
Proof. destruct m; simpl; intros H; try discriminate. eauto. Qed.

Lemma returned_all {A B} (run : A -> result B) l :
  Forall (fun x => returned (run x)) l -> exists rs, Forall2 (fun x r => run x = Ret r) l rs.
Proof.
  induction 1 as [|x l Hx _ IH].
  - exists []. constructor.
  - destruct Hx as [r Hr]. destruct IH as [rs IH].
    exists (r :: rs). constructor; assumption.
Qed.

(** ** Own properties *)


Lemma lookup_in_keys k m x : lookup k m = Some x -> In k (keys m).
Proof.
  induction m as [|[k0 v0] m IH]; simpl; [discriminate|].
  destruct (k0 =? k) eqn:E; [left; apply String.eqb_eq, E | right; auto].
Qed.












(** ** The allOf merge *)







Lemma allOf_loop (self : value -> value -> bool -> result value) root b subs rs :
  Forall2 (fun sub r => self sub root b = Ret r) subs rs ->
  forall acc,
    forEach (merge_step self root b) subs acc = Ret (fold_left merge_child rs acc).
Proof.
  induction 1 as [|sub r subs rs Hr _ IH]; intros acc; simpl; [reflexivity|].
  unfold merge_step at 1. rewrite Hr. simpl. apply IH.
Qed.

Lemma allOf_is_object schema subs :
  prop schema "allOf" = VArr subs -> exists m, schema = VObj m.
Proof. destruct schema; simpl; try discriminate. eauto. Qed.

Lemma generateExample_allOf now fuel schema root b subs :
  truthy (prop schema "$ref") = false ->
  prop schema "allOf" = VArr subs ->
  generateExample now (S fuel) schema root b
  = (merged <- forEach (merge_step (generateExample now fuel) root b) subs [] ;;
     Ret (VObj merged)).
Proof.
  intros Href Hall.
  assert (Ht : truthy schema = true) by (destruct (allOf_is_object _ _ Hall) as [m ->]; reflexivity).
  change (generateExample now (S fuel)) with (generateExample_body now (generateExample now fuel)).
  unfold generateExample_body. rewrite Ht, Href, Hall. reflexivity.
Qed.




(** ** The first alternative of anyOf and oneOf *)


(** ** The result of an allOf node is an object *)

(** An allOf request-body schema never makes the example step of the
    assembler (lines 88-105) raise. *)
Lemma allOf_body_examples_return now fuel spec bodySchema subs lines :
  truthy (prop bodySchema "$ref") = false ->
  prop bodySchema "allOf" = VArr subs ->
  Forall (fun sub => returned (generateExample now fuel sub spec true)) subs ->
  Forall (fun sub => returned (generateExample now fuel sub spec false)) subs ->
  returned (input_examples now (S fuel) spec bodySchema lines).
Proof.
  intros Href Hall Ht Hf.
  destruct (returned_all _ _ Ht) as [rt Hrt]. destruct (returned_all _ _ Hf) as [rf Hrf].
  assert (Hb : truthy bodySchema = true)
    by (destruct (allOf_is_object _ _ Hall) as [m ->]; reflexivity).
  unfold input_examples. rewrite Hb.
  rewrite !(generateExample_allOf _ _ _ _ _ _ Href Hall).
  rewrite (allOf_loop _ _ _ _ _ Hrt), (allOf_loop _ _ _ _ _ Hrf). simpl.
  eexists. reflexivity.
Qed.


(** ** Object nodes *)

Lemma precedes_irrefl k : precedes k k = false.
Proof.
  unfold precedes. destruct (array_index k).
  - apply N.ltb_irrefl.
  - rewrite String.eqb_refl. reflexivity.
Qed.

Lemma insert_index_last i k v m :
  array_index k = Some i ->
  Forall (fun k' => precedes k' k = true) (keys m) ->
  insert_index i k v m = m ++ [(k, v)].
Proof.
  intros Hk. induction m as [|[k0 v0] m IH]; simpl; intros H; [reflexivity|].
  inversion H as [|? ? H0 Hm]; subst. unfold precedes in H0. rewrite Hk in H0.
  destruct (array_index k0) as [j|]; [|discriminate].
  rewrite H0. f_equal. apply IH, Hm.
Qed.

Lemma define_prop_last m k v :
  Forall (fun k' => precedes k' k = true) (keys m) ->
  define_prop m k v = m ++ [(k, v)].
Proof.
  intros H. unfold define_prop.
  assert (Hk : has_key k m = false).
  { unfold has_key. destruct (lookup k m) eqn:L; [|reflexivity].
    apply lookup_in_keys in L. rewrite Forall_forall in H.
    specialize (H k L). rewrite precedes_irrefl in H. discriminate. }
  rewrite Hk. destruct (array_index k) eqn:Hi; [|reflexivity].
  apply insert_index_last; assumption.
Qed.

Lemma existsb_is_str k reqs : existsb (is_str k) reqs = true <-> In (VStr k) reqs.
Proof.
  rewrite existsb_exists. split.
  - intros [x [Hin Hx]]. destruct x; simpl in Hx; try discriminate.
    apply String.eqb_eq in Hx. subst. exact Hin.
  - intros Hin. exists (VStr k). split; [exact Hin|]. simpl. apply String.eqb_refl.
Qed.

Lemma add_property_eq (self : value -> value -> bool -> result value) root b reqs obj k s :
  add_property self root b (VArr reqs) obj (k, s)
  = if kept b reqs k
    then ex <- self s root b ;; Ret (assign_prop obj k ex)
    else Ret obj.
Proof.
  unfold add_property, kept. destruct b; simpl; [|reflexivity].
  destruct (existsb (is_str k) reqs); reflexivity.
Qed.

(** The loop of lines 206-209 over properties in enumeration order: every
    kept property is synthesized, and every one but __proto__ is appended
    under its own name, with the synthesis of its schema as value. *)
Lemma object_loop (self : value -> value -> bool -> result value) root b reqs ps :
  forall acc,
    key_order (keys ps) = true ->
    (forall k k', In k (keys acc) -> In k' (keys ps) -> precedes k k' = true) ->
    Forall (fun kv => kept b reqs (fst kv) = true -> returned (self (snd kv) root b)) ps ->
    exists m,
      forEach (add_property self root b (VArr reqs)) ps acc = Ret (acc ++ m)
      /\ Forall2 (fun kv kr => fst kr = fst kv /\ self (snd kv) root b = Ret (snd kr))
           (filter (fun kv => assigned b reqs (fst kv)) ps) m.
Proof.
  induction ps as [|[k s] ps IH]; intros acc Hord Hacc Hret.
  - exists []. simpl. rewrite app_nil_r. split; [reflexivity | constructor].
  - simpl in Hord. apply andb_prop in Hord. destruct Hord as [Hk Hord].
    rewrite forallb_forall in Hk. inversion Hret as [|? ? Hs Hret']; subst.
    simpl forEach. simpl filter. rewrite add_property_eq. unfold assigned. simpl fst.
    destruct (kept b reqs k) eqn:Hkept; simpl.
    + destruct (Hs Hkept) as [r Hr]. simpl in Hr. rewrite Hr. simpl.
      unfold assign_prop, own_name. destruct (k =? "__proto__"); simpl.
      * destruct (IH acc Hord) as [m [Hm Hrel]].
        -- intros k1 k2 H1 H2. apply Hacc; [exact H1 | right; exact H2].
        -- exact Hret'.
        -- exists m. split; assumption.
      * rewrite define_prop_last.
        2:{ rewrite Forall_forall. intros k' Hk'. apply Hacc; [exact Hk' | left; reflexivity]. }
        destruct (IH (acc ++ [(k, r)]) Hord) as [m [Hm Hrel]].
        -- intros k1 k2 H1 H2. unfold keys in H1. rewrite map_app in H1.
           apply in_app_or in H1. destruct H1 as [H1|[<-|[]]].
           ++ apply Hacc; [exact H1 | right; exact H2].
           ++ apply Hk, H2.
        -- exact Hret'.
        -- exists ((k, r) :: m). rewrite Hm, <- app_assoc. split; [reflexivity|].
           constructor; [split; [reflexivity | exact Hr] | exact Hrel].
    + destruct (IH acc Hord) as [m [Hm Hrel]].
      * intros k1 k2 H1 H2. apply Hacc; [exact H1 | right; exact H2].
      * exact Hret'.
      * exists m. split; assumption.
Qed.

Lemma own_name_iff k : own_name k = true <-> k <> "__proto__".
Proof.
  unfold own_name. rewrite negb_true_iff. split.
  - intros H E. subst k. discriminate H.
  - intros H. apply String.eqb_neq, H.
Qed.

Lemma filter_all {A} (f : A -> bool) l : forallb f l = true -> filter f l = l.
Proof.
  induction l as [|x l IH]; simpl; [reflexivity|]. intros H.
  apply andb_prop in H. destruct H as [Hx Hl]. rewrite Hx, (IH Hl). reflexivity.
Qed.

Lemma keys_of_loop (self : value -> value -> bool -> result value) root b ps (f : string -> bool) m :
  Forall2 (fun kv kr => fst kr = fst kv /\ self (snd kv) root b = Ret (snd kr))
    (filter (fun kv => f (fst kv)) ps) m ->
  keys m = filter f (keys ps).
Proof.
  revert m. induction ps as [|[k s] ps IH]; simpl; intros m H.
  - inversion H. reflexivity.
  - destruct (f k).
    + inversion H as [|? [k' r] ? ? [Hk _] Hrest]; subst. simpl in *. subst k'.
      f_equal. apply IH, Hrest.
    + apply IH, H.
Qed.

Lemma object_node_is_object schema : object_node schema = true -> exists m, schema = VObj m.
Proof.
  unfold object_node. intros H. destruct schema; simpl in H; try discriminate. eauto.
Qed.

Lemma generateExample_object now fuel schema root b :
  object_node schema = true ->
  generateExample now (S fuel) schema root b
  = (obj <- forEach (add_property (generateExample now fuel) root b
                        (or_else (prop schema "required") (VArr [])))
             (declared schema) [] ;;
     Ret (VObj obj)).
Proof.
  intros H.
  assert (Ht : truthy schema = true) by (destruct (object_node_is_object _ H) as [m ->]; reflexivity).
  unfold object_node in H. repeat (apply andb_prop in H; destruct H as [H ?]).
  repeat match goal with
         | Hn : negb _ = true |- _ => apply negb_true_iff in Hn
         end.
  change (generateExample now (S fuel)) with (generateExample_body now (generateExample now fuel)).
  unfold generateExample_body.
  repeat match goal with
         | Hn : _ = _ |- _ => rewrite Hn
         end.
  reflexivity.
Qed.

(** C6, as amended. For an object schema node with no $ref, no composition
    keyword, no example and no default of its own, whose declared properties
    are in the engine's enumeration order, synthesizing in full mode returns
    (once each property's synthesis returns) an object whose keys are exactly
    the declared property names other than __proto__, in declaration order,
    each with the synthesis of its property schema as value: exactly the N
    declared names when none of them is __proto__.  The assignment of line
    208 creates no key under the name __proto__. *)
Theorem full_example_keys now fuel schema root :
  object_node schema = true ->
  key_order (keys (declared schema)) = true ->
  Forall (fun kv => returned (generateExample now fuel (snd kv) root false))
    (declared schema) ->
  exists m,
    generateExample now (S fuel) schema root false = Ret (VObj m)
    /\ keys m = filter own_name (keys (declared schema))
    /\ Forall2 (fun kv kr => generateExample now fuel (snd kv) root false = Ret (snd kr))
         (filter (fun kv => own_name (fst kv)) (declared schema)) m
    /\ (forallb own_name (keys (declared schema)) = true ->
        keys m = keys (declared schema)
        /\ List.length m = List.length (declared schema)).
Proof.
  intros Hnode Hord Hret.
  rewrite (generateExample_object _ _ _ _ _ Hnode).
  assert (Hreq : forall ps acc,
             forEach (add_property (generateExample now fuel) root false
                        (or_else (prop schema "required") (VArr []))) ps acc
             = forEach (add_property (generateExample now fuel) root false (VArr [])) ps acc).
  { induction ps as [|kv ps IH]; intros acc; [reflexivity|]. simpl.
    unfold add_property at 1 3. cbn [bind].
    destruct (generateExample now fuel (snd kv) root false); cbn [bind]; auto. }
  rewrite Hreq.
  destruct (object_loop (generateExample now fuel) root false [] (declared schema) [] Hord)
    as [m [Hm Hrel]].
  - intros k k' [].
  - eapply Forall_impl; [|exact Hret]. intros kv H _. exact H.
  - assert (Hk : keys m = filter own_name (keys (declared schema))).
    { apply (keys_of_loop _ _ _ _ (assigned false [])) in Hrel. exact Hrel. }
    exists m. rewrite Hm. simpl. split; [reflexivity|]. split; [exact Hk|]. split.
    + eapply Forall2_impl; [|exact Hrel]. intros kv kr [_ H]. exact H.
    + intros Hall. rewrite (filter_all _ _ Hall) in Hk. split; [exact Hk|].
      unfold keys in Hk. rewrite <- (length_map fst m), Hk. apply length_map.
Qed.

(** C7, as amended. For an object schema node with no $ref, no composition
    keyword, no example and no default of its own, whose required list is a
    list (or absent), synthesizing in required-only mode returns an object
    whose keys are the declared properties named in the required list, the
    name __proto__ apart, in declaration order: a subset of the required
    list, and equal to it as a set when every required name is a declared
    property other than __proto__. *)
Theorem required_example_keys now fuel schema root reqs :
  object_node schema = true ->
  key_order (keys (declared schema)) = true ->
  or_else (prop schema "required") (VArr []) = VArr reqs ->
  Forall (fun kv => In (VStr (fst kv)) reqs ->
                    returned (generateExample now fuel (snd kv) root true))
    (declared schema) ->
  exists m,
    generateExample now (S fuel) schema root true = Ret (VObj m)
    /\ keys m = filter (fun k => existsb (is_str k) reqs && own_name k)
                  (keys (declared schema))
    /\ (forall k, In k (keys m) -> In (VStr k) reqs)
    /\ ((forall k, In (VStr k) reqs ->
                   In k (keys (declared schema)) /\ k <> "__proto__") ->
        forall k, In k (keys m) <-> In (VStr k) reqs).
Proof.
  intros Hnode Hord Hreq Hret.
  rewrite (generateExample_object _ _ _ _ _ Hnode), Hreq.
  destruct (object_loop (generateExample now fuel) root true reqs (declared schema) [] Hord)
    as [m [Hm Hrel]].
  - intros k k' [].
  - eapply Forall_impl; [|exact Hret]. intros kv H Hk. apply H.
    apply existsb_is_str. exact Hk.
  - apply (keys_of_loop _ _ _ _ (assigned true reqs)) in Hrel.
    assert (Hin : forall k, In k (keys m) <->
                            In k (keys (declared schema))
                            /\ In (VStr k) reqs /\ k <> "__proto__").
    { intros k. rewrite Hrel, filter_In. unfold assigned, kept.
      rewrite andb_true_iff, (existsb_is_str k reqs), own_name_iff. reflexivity. }
    exists m. rewrite Hm. simpl. split; [reflexivity|]. split; [exact Hrel|]. split.
    + intros k Hk. apply Hin, Hk.
    + intros Hdecl k. rewrite Hin. split; [tauto|]. intros H.
      destruct (Hdecl k H) as [Hd Hp]. tauto.
Qed.

(** C6 fails as stated: an object node with one declared property, no
    composition keyword and no $ref, but with an example (or a default) of
    its own, synthesizes to that example (that default), whose keys are not
    the declared property names. *)
Lemma example_overrides_declared_keys :
  keys (declared object_with_example) = ["a"]
  /\ generateExample sample_now 1 object_with_example VNull false = Ret (VObj [("x", VNum 1)])
  /\ ~ (exists fuel m,
          generateExample sample_now fuel object_with_example VNull false = Ret (VObj m)
          /\ keys m = keys (declared object_with_example))
  /\ generateExample sample_now 1 object_with_default VNull false = Ret (VObj [])
  /\ ~ (exists fuel m,
          generateExample sample_now fuel object_with_default VNull false = Ret (VObj m)
          /\ keys m = keys (declared object_with_default)).
Proof.
  repeat split; try reflexivity.
  - intros [[|fuel] [m [H Hk]]]; vm_compute in H; [discriminate H|].
    inversion H; subst m. discriminate Hk.
  - intros [[|fuel] [m [H Hk]]]; vm_compute in H; [discriminate H|].
    inversion H; subst m. discriminate Hk.
Qed.

(** C7 fails as stated.  Without composition the key set is not the
    required list when a required name is not a declared property; with
    allOf, or with an example of the node's own, the keys are not even
    among the node's required names. *)
Lemma required_keys_differ_from_required_list :
  generateExample sample_now 2 undeclared_required VNull true
  = Ret (VObj [("a", VStr "string")])
  /\ ~ (exists fuel m,
          generateExample sample_now fuel undeclared_required VNull true = Ret (VObj m)
          /\ forall k, In k (keys m) <-> In (VStr k) [VStr "a"; VStr "b"])
  /\ generateExample sample_now 3 object_with_allOf VNull true
     = Ret (VObj [("z", VStr "string")])
  /\ ~ In (VStr "z") [VStr "a"]
  /\ generateExample sample_now 1 object_with_example VNull true = Ret (VObj [("x", VNum 1)])
  /\ prop object_with_example "required" = VUndefined.
Proof.
  repeat split; try reflexivity.
  - intros [fuel [m [H Hk]]].
    assert (Hm : m = [("a", VStr "string")]).
    { destruct fuel as [|[|fuel]]; vm_compute in H; try discriminate H.
      inversion H. reflexivity. }
    subst m. destruct (proj2 (Hk "b")) as [Hb|[]]; [right; left; reflexivity|].
    discriminate Hb.
  - intros [H|[]]. discriminate H.
Qed.

(** ** Termination and reference chains *)

Lemma terminates_bind {A B} (m : result A) (f : A -> result B) :
  terminates m -> (forall a, m = Ret a -> terminates (f a)) -> terminates (bind m f).
Proof.
  unfold terminates. destruct m; simpl; intros Hm Hf; auto. discriminate.
Qed.

Lemma terminates_ret {A} (a : A) : terminates (Ret a).
Proof. discriminate. Qed.

Lemma terminates_raise {A} e : terminates (@Raise A e).
Proof. discriminate. Qed.

Lemma forEach_terminates {A S} (body : S -> A -> result S) l :
  (forall s x, In x l -> terminates (body s x)) ->
  forall s, terminates (forEach body l s).
Proof.
  induction l as [|x l IH]; intros H s; simpl; [apply terminates_ret|].
  apply terminates_bind; [apply H; left; reflexivity|].
  intros s' _. apply IH. intros s0 y Hy. apply H. right. exact Hy.
Qed.

Create HintDb term.
#[local] Hint Resolve terminates_ret terminates_raise : term.

Ltac in_calls :=
  unfold calls_generateExample, calls_parseSchema;
  repeat rewrite in_app_iff; simpl; auto 10 using in_map.

Lemma generateExample_body_terminates now self v root b :
  (forall c, In c (calls_generateExample root v) -> terminates (self c root b)) ->
  terminates (generateExample_body now self v root b).
Proof.
  intros H. unfold generateExample_body.
  destruct (negb (truthy v)); auto with term.
  destruct (truthy (prop v "$ref")).
  { assert (Hc : forall s, prop v "$ref" = VStr s -> terminates (self (resolve root s) root b)).
    { intros s Hs. apply H. unfold calls_generateExample, ref_target. rewrite Hs. left. reflexivity. }
    destruct (prop v "$ref"); simpl; auto with term.
    destruct (truthy (resolve root s)); auto with term. }
  destruct (truthy (prop v "allOf")).
  { assert (Hc : forall c, In c (array_items (prop v "allOf")) -> terminates (self c root b)).
    { intros c Hin. apply H. in_calls. }
    destruct (prop v "allOf"); simpl; auto with term.
    apply terminates_bind; [|auto with term].
    apply forEach_terminates. intros s x Hx. unfold merge_step.
    apply terminates_bind; [apply Hc, Hx | auto with term]. }
  destruct (truthy (prop v "anyOf") || truthy (prop v "oneOf")).
  { apply H. in_calls. }
  destruct (is_defined (prop v "example")); auto with term.
  destruct (is_defined (prop v "default")); auto with term.
  destruct (is_str "object" (prop v "type") || truthy (prop v "properties")).
  { apply terminates_bind; [|auto with term].
    apply forEach_terminates. intros s x Hx. unfold add_property.
    apply terminates_bind.
    - destruct b; auto with term.
      destruct (includes (or_else (prop v "required") (VArr [])) (fst x)) eqn:E;
        simpl; auto with term.
      destruct (or_else (prop v "required") (VArr [])); discriminate.
    - intros [|] _; auto with term.
      apply terminates_bind; [|auto with term].
      apply H. in_calls. }
  destruct (is_str "array" (prop v "type")).
  { apply terminates_bind; [|auto with term].
    apply H. in_calls. }
  destruct (truthy (prop v "enum")); auto with term.
Qed.

Lemma parseSchema_body_terminates self v root lines depth :
  (forall c lines depth, In c (calls_parseSchema root v) -> terminates (self c root lines depth)) ->
  terminates (parseSchema_body self v root lines depth).
Proof.
  intros H. unfold parseSchema_body.
  destruct (negb (truthy v)); auto with term.
  destruct (truthy (prop v "$ref")).
  { assert (Hc : forall s, prop v "$ref" = VStr s ->
                           terminates (self (resolve root s) root lines depth)).
    { intros s Hs. apply H. unfold calls_parseSchema, ref_target. rewrite Hs. left. reflexivity. }
    destruct (prop v "$ref"); simpl; auto with term.
    destruct (truthy (resolve root s)); auto with term. }
  destruct (truthy (prop v "allOf") || truthy (prop v "anyOf") || truthy (prop v "oneOf")).
  { set (subSchemas := or_else (prop v "allOf") (or_else (prop v "anyOf") (prop v "oneOf"))).
    assert (Hc : forall c lines depth, In c (array_items subSchemas) ->
                                       terminates (self c root lines depth)).
    { intros c l d Hin. apply H. in_calls. }
    destruct subSchemas; simpl; auto with term.
    apply forEach_terminates. intros s x Hx. apply Hc, Hx. }
  destruct (is_str "object" (prop v "type") || truthy (prop v "properties")).
  { apply forEach_terminates. intros s x Hx. unfold describe_property.
    assert (Hin : forall c, In c [snd x; prop (snd x) "items"] -> In c (calls_parseSchema root v)).
    { intros c Hc. unfold calls_parseSchema. rewrite !in_app_iff. right. right. left.
      apply in_flat_map. exists x. split; assumption. }
    apply terminates_bind.
    - destruct (or_else (prop v "required") (VArr [])); simpl; auto with term.
    - intros isRequired _. apply terminates_bind.
      + destruct (snd x); simpl; auto with term.
      + intros _ _.
        destruct (is_str "object" (prop (snd x) "type") || truthy (prop (snd x) "properties")
                  || truthy (prop (snd x) "$ref")).
        * apply H, Hin. left. reflexivity.
        * destruct (is_str "array" (prop (snd x) "type") && truthy (prop (snd x) "items"));
            auto with term.
          apply H, Hin. right. left. reflexivity. }
  destruct (is_str "array" (prop v "type") && truthy (prop v "items")).
  { apply H. in_calls. }
  destruct (truthy (prop v "type")); auto with term.
Qed.

Lemma below_trans root a b c : below root a b -> strictly_below root b c -> strictly_below root a c.
Proof.
  intros [H1 H2] [H3 H4]. split; [lia | eapply incl_tran; eassumption].
Qed.

Lemma member_arr root x l : In x l -> strictly_below root x (VArr l).
Proof.
  intros Hin. split; simpl.
  - induction l as [|y l IH]; [destruct Hin|]. simpl. destruct Hin as [->|Hin]; [lia|].
    specialize (IH Hin). lia.
  - intros t Ht. apply in_flat_map. exists x. split; assumption.
Qed.

Lemma member_obj root k x m : In (k, x) m -> strictly_below root x (VObj m).
Proof.
  intros Hin. split; simpl.
  - induction m as [|[k0 y] m IH]; [destruct Hin|]. simpl.
    destruct Hin as [Heq|Hin]; [inversion Heq; subst; lia|]. specialize (IH Hin). lia.
  - intros t Ht. apply in_or_app. right. apply in_flat_map. exists (k, x). split; assumption.
Qed.

Lemma lookup_in k m x : lookup k m = Some x -> In (k, x) m.
Proof.
  induction m as [|[k0 y] m IH]; simpl; [discriminate|].
  destruct (k0 =? k) eqn:E.
  - apply String.eqb_eq in E. intros H. inversion H. subst. left. reflexivity.
  - intros H. right. apply IH, H.
Qed.

Lemma atom_below root c v : size c = 0 -> ref_targets root c = [] -> below root c v.
Proof. intros Hs Hr. split; [lia | rewrite Hr; intros t []]. Qed.

Lemma atom_strictly_below root c v :
  size c = 0 -> ref_targets root c = [] -> 0 < size v -> strictly_below root c v.
Proof. intros Hs Hr Hv. split; [lia | rewrite Hr; intros t []]. Qed.

Lemma nth_chars_atom n s : exists a, nth n (chars s) VUndefined = a /\ size a = 0
                                   /\ forall root, ref_targets root a = [].
Proof.
  unfold chars. revert n. induction (list_ascii_of_string s) as [|c l IH]; intros n; simpl.
  - destruct n; eexists; repeat split.
  - destruct n; [eexists; repeat split | apply IH].
Qed.

Lemma prop_below root v k : below root (prop v k) v.
Proof.
  destruct v; simpl; try (apply atom_below; reflexivity).
  - destruct (k =? "length"); [apply atom_below; reflexivity|].
    destruct (array_index k); [|apply atom_below; reflexivity].
    destruct (nth_chars_atom (N.to_nat n) s) as [a [-> [Ha Hr]]]. apply atom_below; auto.
  - destruct (k =? "length"); [apply atom_below; reflexivity|].
    destruct (array_index k); [|apply atom_below; reflexivity].
    destruct (nth_in_or_default (N.to_nat n) items VUndefined) as [Hin| ->].
    + destruct (member_arr root _ _ Hin) as [H1 H2]. split; [lia | exact H2].
    + apply atom_below; reflexivity.
  - destruct (lookup k fields) eqn:L; [|apply atom_below; reflexivity].
    apply lookup_in in L. destruct (member_obj root _ _ _ L) as [H1 H2]. split; [lia | exact H2].
Qed.

Lemma prop_obj_strictly_below root m k : strictly_below root (prop (VObj m) k) (VObj m).
Proof.
  simpl. destruct (lookup k m) eqn:L.
  - apply lookup_in in L. eapply member_obj, L.
  - apply atom_strictly_below; simpl; auto; lia.
Qed.

Lemma in_indexed_from {A} (k : string) (x : A) l i : In (k, x) (indexed_from i l) -> In x l.
Proof.
  revert i. induction l as [|y l IH]; intros i; simpl; [tauto|].
  intros [H|H]; [inversion H; auto | right; eapply IH, H].
Qed.

Lemma entry_below root p kv : In kv (own_entries p) -> below root (snd kv) p.
Proof.
  destruct kv as [k x]. destruct p; simpl; try tauto.
  - intros H. apply in_indexed_from in H. unfold chars in H. apply in_map_iff in H.
    destruct H as [c [<- _]]. apply atom_below; reflexivity.
  - intros H. apply in_indexed_from in H.
    destruct (member_arr root _ _ H) as [H1 H2]. split; [simpl in *; lia | exact H2].
  - intros H. destruct (member_obj root _ _ _ H) as [H1 H2]. split; [simpl in *; lia | exact H2].
Qed.

Lemma item_below root p c : In c (array_items p) -> below root c p.
Proof.
  destruct p; simpl; try tauto. intros H.
  destruct (member_arr root _ _ H) as [H1 H2]. split; [simpl in *; lia | exact H2].
Qed.

Lemma or_else_cases a b : or_else a b = a \/ or_else a b = b.
Proof. unfold or_else. destruct (truthy a); auto. Qed.

Lemma declared_strictly_below root m kv :
  In kv (declared (VObj m)) -> strictly_below root (snd kv) (VObj m).
Proof.
  unfold declared. intros H.
  destruct (or_else_cases (prop (VObj m) "properties") (VObj [])) as [E|E]; rewrite E in H.
  - eapply below_trans; [apply entry_below, H | apply prop_obj_strictly_below].
  - destruct H.
Qed.

(** What one call may call itself on: the target of the node's own
    reference, the undefined value, or a value strictly below the node. *)
Lemma calls_generateExample_cases root v c :
  In c (calls_generateExample root v) ->
  In c (ref_target root v) \/ c = VUndefined \/ strictly_below root c v.
Proof.
  unfold calls_generateExample. rewrite !in_app_iff. intros [H|H]; [left; exact H | right].
  destruct v; try (simpl in H; intuition (auto; contradiction)).
  destruct H as [H|[H|[H|H]]].
  - right. eapply below_trans; [apply item_below, H | apply prop_obj_strictly_below].
  - destruct H as [<-|[]]. right.
    eapply below_trans; [apply prop_below|].
    destruct (or_else_cases (prop (VObj fields) "anyOf") (prop (VObj fields) "oneOf")) as [E|E];
      rewrite E; apply prop_obj_strictly_below.
  - apply in_map_iff in H. destruct H as [kv [<- H]]. right.
    apply declared_strictly_below, H.
  - destruct H as [<-|[]]. right. apply prop_obj_strictly_below.
Qed.

Lemma calls_parseSchema_cases root v c :
  In c (calls_parseSchema root v) ->
  In c (ref_target root v) \/ c = VUndefined \/ strictly_below root c v.
Proof.
  unfold calls_parseSchema. rewrite !in_app_iff. intros [H|H]; [left; exact H | right].
  destruct v; try (simpl in H; intuition (auto; contradiction)).
  destruct H as [H|[H|H]].
  - right. eapply below_trans; [apply item_below, H|].
    destruct (or_else_cases (prop (VObj fields) "allOf")
                (or_else (prop (VObj fields) "anyOf") (prop (VObj fields) "oneOf"))) as [E|E];
      rewrite E; [apply prop_obj_strictly_below|].
    destruct (or_else_cases (prop (VObj fields) "anyOf") (prop (VObj fields) "oneOf")) as [E'|E'];
      rewrite E'; apply prop_obj_strictly_below.
  - apply in_flat_map in H. destruct H as [kv [Hkv H]]. right.
    destruct H as [<-|[<-|[]]].
    + apply declared_strictly_below, Hkv.
    + eapply below_trans; [apply prop_below | apply declared_strictly_below, Hkv].
  - destruct H as [<-|[]]. right. apply prop_obj_strictly_below.
Qed.

Lemma ref_chains_inherit d root c v :
  incl (ref_targets root c) (ref_targets root v) ->
  ref_chains_within d root v = true -> ref_chains_within d root c = true.
Proof.
  intros Hincl. destruct d; simpl.
  - destruct (ref_targets root v); [|discriminate]. intros _.
    destruct (ref_targets root c) as [|t l]; [reflexivity|].
    destruct (Hincl t (or_introl eq_refl)).
  - rewrite !forallb_forall. intros H t Ht. apply H, Hincl, Ht.
Qed.

Lemma ref_target_in root v t : In t (ref_target root v) -> In t (ref_targets root v).
Proof.
  unfold ref_target. destruct v; try (intros []).
  simpl. destruct (lookup "$ref" fields) as [[]|]; simpl; tauto.
Qed.

Lemma ref_hop d root v t :
  In t (ref_target root v) ->
  ref_chains_within d root v = true ->
  exists d', d = S d' /\ ref_chains_within d' root t = true.
Proof.
  intros Ht. apply ref_target_in in Ht. destruct d; simpl.
  - destruct (ref_targets root v); [destruct Ht | discriminate].
  - rewrite forallb_forall. intros H. exists d. split; [reflexivity | apply H, Ht].
Qed.

Lemma common_fuel {A} (Q : nat -> A -> Prop) l :
  (forall c, In c l -> exists N, forall fuel, N <= fuel -> Q fuel c) ->
  exists N, forall fuel, N <= fuel -> forall c, In c l -> Q fuel c.
Proof.
  induction l as [|x l IH]; intros H.
  - exists 0. intros fuel _ c [].
  - destruct (H x (or_introl eq_refl)) as [N1 H1].
    destruct IH as [N2 H2]; [intros c Hc; apply H; right; exact Hc|].
    exists (Nat.max N1 N2). intros fuel Hf c [<-|Hc].
    + apply H1. lia.
    + apply H2; [lia | exact Hc].
Qed.

Lemma both_terminate_step now root fuel v :
  (forall c, In c (calls_generateExample root v ++ calls_parseSchema root v) ->
             both_terminate now root fuel c) ->
  both_terminate now root (S fuel) v.
Proof.
  intros H. split.
  - intros b. apply generateExample_body_terminates.
    intros c Hc. apply H. apply in_or_app. left. exact Hc.
  - intros lines depth. apply parseSchema_body_terminates.
    intros c l d Hc. apply H. apply in_or_app. right. exact Hc.
Qed.

Lemma both_terminate_undefined now root fuel : both_terminate now root (S fuel) VUndefined.
Proof. split; intros; discriminate. Qed.

Lemma terminate_within now root :
  forall d n v, size v < n -> ref_chains_within d root v = true ->
  exists N, forall fuel, N <= fuel -> both_terminate now root fuel v.
Proof.
  induction d as [d IHd] using lt_wf_ind.
  induction n as [|n IHn]; intros v Hsize Hd; [lia|].
  destruct (common_fuel (both_terminate now root)
              (calls_generateExample root v ++ calls_parseSchema root v)) as [N HN].
  - intros c Hc.
    assert (Hcases : In c (ref_target root v) \/ c = VUndefined \/ strictly_below root c v).
    { apply in_app_or in Hc. destruct Hc as [Hc|Hc];
        [apply calls_generateExample_cases | apply calls_parseSchema_cases]; exact Hc. }
    destruct Hcases as [Ht|[->|[Hlt Hincl]]].
    + destruct (ref_hop _ _ _ _ Ht Hd) as [d' [-> Hc']].
      apply (IHd d' (Nat.lt_succ_diag_r d') (S (size c)) c); [lia | exact Hc'].
    + exists 1. intros [|fuel] Hf; [lia | apply both_terminate_undefined].
    + apply IHn; [lia | eapply ref_chains_inherit; eassumption].
  - exists (S N). intros [|fuel] Hf; [lia|].
    apply both_terminate_step. intros c Hc. apply HN; [lia | exact Hc].
Qed.

(** C2, as amended. For every document and schema in which every chain of
    $ref hops is finite (no schema reaches itself again through $ref), the
    describer and the synthesizer both terminate: from some amount of fuel
    on, neither is cut short.  The engine keeps no set of visited schemas and
    emits no cycle marker. *)
Theorem finite_ref_chains_terminate now root schema d :
  ref_chains_within d root schema = true ->
  exists N, forall fuel, N <= fuel ->
    (forall onlyRequired, terminates (generateExample now fuel schema root onlyRequired))
    /\ (forall lines depth, terminates (parseSchema fuel schema root lines depth)).
Proof.
  intros H. exact (terminate_within now root d (S (size schema)) schema (Nat.lt_succ_diag_r _) H).
Qed.

Lemma cyclic_parseSchema fuel :
  forall lines depth,
    parseSchema fuel node_ref cyclic_doc lines depth = OutOfFuel
    /\ parseSchema fuel node_schema cyclic_doc lines depth = OutOfFuel.
Proof.
  induction fuel as [|fuel IH]; intros lines depth; [split; reflexivity|].
  split.
  - change (parseSchema (S fuel)) with (parseSchema_body (parseSchema fuel)).
    unfold parseSchema_body.
    change (resolve cyclic_doc "#/components/schemas/Node") with node_schema.
    simpl. apply IH.
  - change (parseSchema (S fuel)) with (parseSchema_body (parseSchema fuel)).
    unfold parseSchema_body. simpl. unfold describe_property. simpl.
    rewrite (proj1 (IH _ _)). reflexivity.
Qed.

Lemma cyclic_generateExample fuel :
  generateExample sample_now fuel node_ref cyclic_doc false = OutOfFuel
  /\ generateExample sample_now fuel node_schema cyclic_doc false = OutOfFuel.
Proof.
  induction fuel as [|fuel IH]; [split; reflexivity|].
  split.
  - change (generateExample sample_now (S fuel))
      with (generateExample_body sample_now (generateExample sample_now fuel)).
    unfold generateExample_body.
    change (resolve cyclic_doc "#/components/schemas/Node") with node_schema.
    simpl. apply IH.
  - change (generateExample sample_now (S fuel))
      with (generateExample_body sample_now (generateExample sample_now fuel)).
    unfold generateExample_body. simpl. unfold add_property. simpl.
    rewrite (proj1 IH). reflexivity.
Qed.

Lemma cyclic_convert fuel : convert sample_now fuel cyclic_doc = OutOfFuel.
Proof.
  unfold convert. simpl. unfold operation_block. simpl.
  unfold request_body_section. simpl.
  change (content_schema (VObj [("application/json", VObj [("schema", node_ref)])]))
    with node_ref.
  simpl. rewrite (proj1 (cyclic_parseSchema fuel _ _)). reflexivity.
Qed.

(** C2 fails as stated: on a schema that reaches itself through $ref, the
    describer, the synthesizer and the conversion are cut short whatever the
    fuel; no cycle marker ends the recursion. *)
Lemma cyclic_schema_does_not_terminate :
  ~ (exists fuel, terminates (parseSchema fuel node_ref cyclic_doc [] 0))
  /\ ~ (exists fuel, terminates (generateExample sample_now fuel node_ref cyclic_doc false))
  /\ ~ (exists fuel, terminates (convert sample_now fuel cyclic_doc)).
Proof.
  split; [|split]; intros [fuel H]; apply H.
  - apply cyclic_parseSchema.
  - apply cyclic_generateExample.
  - apply cyclic_convert.
Qed.

(** No bound on the reference chains of the cyclic schema exists. *)
Lemma cyclic_schema_unbounded d : ref_chains_within d cyclic_doc node_ref = false.
Proof.
  induction d as [|d IH]; [reflexivity|].
  simpl. change (resolve cyclic_doc "#/components/schemas/Node") with node_schema.
  assert (H : ref_chains_within d cyclic_doc node_schema = ref_chains_within d cyclic_doc node_ref).
  { destruct d; reflexivity. }
  rewrite H, IH. reflexivity.
Qed.

(** ** Anomalies in a request-body schema *)

(** Listing the keys of the required-only example raises when the example is
    undefined or null (line 92). *)
Lemma input_examples_raise now fuel spec bodySchema lines requiredEx fullEx :
  truthy bodySchema = true ->
  generateExample now fuel bodySchema spec true = Ret requiredEx ->
  generateExample now fuel bodySchema spec false = Ret fullEx ->
  is_nullish requiredEx = true ->
  input_examples now fuel spec bodySchema lines = Raise TypeError.
Proof.
  intros Ht Hreq Hfull Hnull. unfold input_examples. rewrite Ht, Hreq, Hfull. simpl.
  destruct requiredEx; try discriminate; reflexivity.
Qed.

Lemma request_body_section_json fuel spec schema lines out :
  truthy schema = true ->
  parseSchema fuel schema spec (push lines "**Request Body:**") 0 = Ret out ->
  request_body_section fuel spec (json_body schema) lines = Ret (out, schema).
Proof.
  intros Ht Hp. unfold request_body_section.
  change (truthy (json_body schema)) with true. cbv iota.
  change (or_else (prop (json_body schema) "content") (VObj []))
    with (VObj [("application/json", VObj [("schema", schema)])]).
  assert (Hc : content_schema (VObj [("application/json", VObj [("schema", schema)])]) = schema).
  { unfold content_schema, or_else. simpl. rewrite Ht. reflexivity. }
  cbv zeta. rewrite Hc, Ht, Hp. reflexivity.
Qed.

(** Whatever the request-body schema, as soon as its required-only example
    is undefined or null the conversion raises. *)
Lemma request_body_nullish_aborts now fuel schema requiredEx fullEx :
  truthy schema = true ->
  (forall lines, returned (parseSchema fuel schema (request_doc schema) lines 0)) ->
  generateExample now fuel schema (request_doc schema) true = Ret requiredEx ->
  generateExample now fuel schema (request_doc schema) false = Ret fullEx ->
  is_nullish requiredEx = true ->
  convert now fuel (request_doc schema) = Raise TypeError.
Proof.
  intros Ht Hp Hreq Hfull Hnull.
  unfold convert. cbn -[operation_block]. unfold operation_block.
  cbn -[request_body_section input_examples output_section curl_command].
  match goal with
  | |- context [request_body_section fuel ?spec ?body ?lines] =>
      destruct (Hp (push lines "**Request Body:**")) as [out Hout];
      rewrite (request_body_section_json fuel spec schema lines out Ht Hout)
  end.
  cbn -[input_examples output_section curl_command].
  rewrite (input_examples_raise _ _ _ _ _ _ _ Ht Hreq Hfull Hnull). reflexivity.
Qed.

(** C1. An anomaly inside a request-body schema is not recovered: an empty
    schema and a schema of unknown type synthesize to null, and listing the
    keys of that example (line 92) raises, so the conversion never returns,
    whatever the fuel.  The same schemas inside a response convert: that path
    tests the example before listing its keys (line 124). *)
Theorem request_body_anomaly_aborts :
  generateExample sample_now 1 empty_schema (request_doc empty_schema) true = Ret VNull
  /\ convert sample_now 1 (request_doc empty_schema) = Raise TypeError
  /\ ~ (exists fuel, returned (convert sample_now fuel (request_doc empty_schema)))
  /\ generateExample sample_now 1 unknown_type_schema (request_doc unknown_type_schema) true
     = Ret VNull
  /\ convert sample_now 1 (request_doc unknown_type_schema) = Raise TypeError
  /\ ~ (exists fuel, returned (convert sample_now fuel (request_doc unknown_type_schema)))
  /\ returned (convert sample_now 1 (response_doc empty_schema))
  /\ returned (convert sample_now 1 (response_doc unknown_type_schema)).
Proof.
  repeat split; try reflexivity.
  - intros [[|fuel] [out H]]; vm_compute in H; discriminate H.
  - intros [[|fuel] [out H]]; vm_compute in H; discriminate H.
  - eexists. vm_compute. reflexivity.
  - eexists. vm_compute. reflexivity.
Qed.

(** ** Unresolved references *)

Lemma walk_undefined segments : walk VUndefined segments = VUndefined.
Proof. unfold walk. induction segments as [|s l IH]; simpl; [reflexivity | exact IH]. Qed.

(** A walk that meets a missing segment, or a segment of a value that is
    not a container, ends undefined. *)
Lemma walk_missing_segment root before segment after :
  opt (walk root before) segment = VUndefined ->
  walk root (before ++ segment :: after) = VUndefined.
Proof.
  unfold walk. intros H. rewrite fold_left_app. simpl. rewrite H. apply walk_undefined.
Qed.

(** The describer on a reference whose walk ends on nothing (or on any falsy
    value): exactly one placeholder line naming the reference is appended,
    and nothing is raised. *)
Lemma unresolved_ref_placeholder fuel schema root lines depth ref :
  prop schema "$ref" = VStr ref ->
  ref <> "" ->
  truthy (resolve root ref) = false ->
  parseSchema (S fuel) schema root lines depth
  = Ret (lines ++ [placeholder_line depth ref]).
Proof.
  intros Href Hne Hres.
  assert (Ht : truthy schema = true) by (destruct schema; simpl in Href; try discriminate; reflexivity).
  assert (Hr : truthy (VStr ref) = true).
  { simpl. destruct ref; [contradiction Hne; reflexivity | reflexivity]. }
  change (parseSchema (S fuel)) with (parseSchema_body (parseSchema fuel)).
  unfold parseSchema_body. rewrite Ht, Href, Hr. simpl. rewrite Hres. reflexivity.
Qed.

(** C3. For the reference #/components/schemas/Foo in a document lacking
    that path, the describer appends the single placeholder line and raises
    nothing; but when the reference is the request-body schema the
    conversion does not continue: the synthesizer returns undefined for it
    and listing the keys of that example (line 92) raises.  Inside a response
    the conversion completes. *)
Theorem unresolved_request_ref_aborts :
  resolve (request_doc missing_ref) "#/components/schemas/Foo" = VUndefined
  /\ parseSchema 1 missing_ref (request_doc missing_ref) [] 0
     = Ret [placeholder_line 0 "#/components/schemas/Foo"]
  /\ placeholder_line 0 "#/components/schemas/Foo" = "- `Ref: #/components/schemas/Foo`"
  /\ generateExample sample_now 1 missing_ref (request_doc missing_ref) true = Ret VUndefined
  /\ convert sample_now 1 (request_doc missing_ref) = Raise TypeError
  /\ ~ (exists fuel, returned (convert sample_now fuel (request_doc missing_ref)))
  /\ returned (convert sample_now 1 (response_doc missing_ref)).
Proof.
  repeat split; try reflexivity.
  - intros [[|fuel] [out H]]; vm_compute in H; discriminate H.
  - eexists. vm_compute. reflexivity.
Qed.

(** ** The example of a response *)

(** C9. A response whose content carries a schema and an examples map with
    one named entry: the entry is not found, because the examples map is read
    at key 0 (line 123), and the Example Response block shows the
    synthesized example instead of the named one. *)
Theorem named_example_is_ignored :
  declared_response_example named_examples_content = VUndefined
  /\ response_example sample_now 2 named_examples_doc named_examples_content id_schema
     = Ret (VObj [("id", VNum 0)])
  /\ response_block sample_now 2 named_examples_doc [] "200" named_examples_response
     = Ret (["**Response 200: ok**"; "  - `id` [Optional] (`integer`)"]
            ++ example_response_lines (VObj [("id", VNum 0)]) ++ [""])
  /\ example_response_lines (VObj [("id", VNum 0)])
     <> example_response_lines (VObj [("id", VNum 7)])
  /\ convert sample_now 2 named_examples_doc
     = Ret (join nl
              ([ "# T"; "No description provided."; ""; "## Endpoints"; "";
                 "### GET /x - No summary"; ""; "#### Input";
                 "- No input parameters required."; ""; "#### Output";
                 "**Response 200: ok**"; "  - `id` [Optional] (`integer`)" ]
               ++ example_response_lines (VObj [("id", VNum 0)])
               ++ [ ""; "#### Usage Examples"; ""; "##### cURL"; "```bash";
                    ("curl --request GET " ++ bsl ++ nl
                     ++ "  --url https://api.example.com/x " ++ bsl ++ nl
                     ++ "  --header " ++ dq ++ "Content-Type: application/json" ++ dq)%string;
                    "```"; ""; "---"; "" ])).
Proof.
  repeat split; try reflexivity. vm_compute. discriminate.
Qed.

(** An entry is found only under the key 0, as in an array of examples. *)
Example example_under_key_0 :
  declared_response_example
    (VObj [("application/json",
            VObj [("examples", VArr [VObj [("value", VObj [("id", VNum 7)])]])])])
  = VObj [("id", VNum 7)].
Proof. reflexivity. Qed.

(** ** Lines are only ever appended *)

Lemma extends_refl lines : extends lines lines.
Proof. exists []. symmetry. apply app_nil_r. Qed.

Lemma extends_trans a b c : extends a b -> extends b c -> extends a c.
Proof. intros [x ->] [y ->]. exists (x ++ y). symmetry. apply app_assoc. Qed.

Lemma extends_app lines more : extends lines (lines ++ more).
Proof. exists more. reflexivity. Qed.

Lemma extends_push lines l : extends lines (push lines l).
Proof. apply extends_app. Qed.

Lemma extends_after a b c : extends (a ++ b) c -> extends a c.
Proof. apply extends_trans, extends_app. Qed.

Lemma forEach_extends {A} (body : list string -> A -> result (list string)) l :
  (forall s x s', In x l -> body s x = Ret s' -> extends s s') ->
  forall s s', forEach body l s = Ret s' -> extends s s'.
Proof.
  induction l as [|x l IH]; intros H s s' Hs; simpl in Hs.
  - inversion Hs. apply extends_refl.
  - apply bind_ret in Hs. destruct Hs as [s1 [H1 H2]].
    eapply extends_trans; [eapply H; [left; reflexivity | exact H1]|].
    eapply IH; [|exact H2]. intros s0 y s0' Hy. apply H. right. exact Hy.
Qed.

Lemma parseSchema_body_extends self v root :
  (forall c lines depth out, self c root lines depth = Ret out -> extends lines out) ->
  forall lines depth out,
    parseSchema_body self v root lines depth = Ret out -> extends lines out.
Proof.
  intros Hself lines depth out H. unfold parseSchema_body in H.
  destruct (negb (truthy v)); [inversion H; apply extends_refl|].
  destruct (truthy (prop v "$ref")).
  { apply bind_ret in H. destruct H as [ref [_ H]].
    destruct (truthy (resolve root ref)); [eapply Hself, H|].
    inversion H. apply extends_push. }
  destruct (truthy (prop v "allOf") || truthy (prop v "anyOf") || truthy (prop v "oneOf")).
  { apply bind_ret in H. destruct H as [subs [_ H]].
    eapply extends_after. eapply forEach_extends; [|exact H].
    intros s x s' _ Hx. eapply Hself, Hx. }
  destruct (is_str "object" (prop v "type") || truthy (prop v "properties")).
  { eapply forEach_extends; [|exact H].
    intros s x s' _ Hx. unfold describe_property in Hx.
    apply bind_ret in Hx. destruct Hx as [isRequired [_ Hx]].
    apply bind_ret in Hx. destruct Hx as [t [_ Hx]].
    destruct (is_str "object" (prop (snd x) "type") || truthy (prop (snd x) "properties")
              || truthy (prop (snd x) "$ref")).
    - eapply extends_after, Hself, Hx.
    - destruct (is_str "array" (prop (snd x) "type") && truthy (prop (snd x) "items")).
      + eapply extends_after, extends_after, Hself, Hx.
      + inversion Hx. apply extends_push. }
  destruct (is_str "array" (prop v "type") && truthy (prop v "items")).
  { eapply extends_after, Hself, H. }
  destruct (truthy (prop v "type")); inversion H; [apply extends_push | apply extends_refl].
Qed.

Lemma parseSchema_extends fuel :
  forall v root lines depth out,
    parseSchema fuel v root lines depth = Ret out -> extends lines out.
Proof.
  induction fuel as [|fuel IH]; intros v root lines depth out H; [discriminate H|].
  eapply parseSchema_body_extends; [|exact H]. intros c l d o. apply IH.
Qed.

Lemma response_block_extends now fuel spec lines code response out :
  response_block now fuel spec lines code response = Ret out -> extends lines out.
Proof.
  unfold response_block. intros H.
  apply bind_ret in H. destruct H as [d [_ H]].
  apply bind_ret in H. destruct H as [lines' [H' H]].
  inversion H. subst out. eapply extends_trans; [|apply extends_push].
  eapply extends_after.
  destruct (truthy (content_schema (or_else (prop response "content") (VObj [])))).
  - apply bind_ret in H'. destruct H' as [l1 [H1 H']].
    apply bind_ret in H'. destruct H' as [respEx [_ H']].
    eapply extends_trans; [eapply parseSchema_extends, H1|].
    destruct (truthy respEx); [|inversion H'; apply extends_refl].
    apply bind_ret in H'. destruct H' as [ks [_ H']].
    destruct (0 <? List.length ks)%nat; inversion H'; [apply extends_app | apply extends_refl].
  - destruct (truthy (prop response "$ref")).
    + eapply parseSchema_extends, H'.
    + inversion H'. apply extends_push.
Qed.

Lemma parameters_section_extends parameters lines out :
  parameters_section parameters lines = Ret out -> extends lines out.
Proof.
  unfold parameters_section. intros H.
  destruct (gt_zero (prop parameters "length")); [|inversion H; apply extends_refl].
  apply bind_ret in H. destruct H as [ps [_ H]].
  eapply extends_after. eapply forEach_extends; [|exact H].
  intros s x s' _ Hx. apply bind_ret in Hx. destruct Hx as [l [_ Hx]].
  inversion Hx. apply extends_push.
Qed.

Lemma request_body_section_extends fuel spec requestBody lines st :
  request_body_section fuel spec requestBody lines = Ret st -> extends lines (fst st).
Proof.
  unfold request_body_section. intros H.
  destruct (truthy requestBody); [|inversion H; apply extends_refl].
  destruct (truthy (content_schema (or_else (prop requestBody "content") (VObj [])))).
  - apply bind_ret in H. destruct H as [l [Hl H]]. inversion H. simpl.
    eapply extends_after, parseSchema_extends, Hl.
  - inversion H. simpl. eapply extends_after, extends_push.
Qed.

Lemma input_examples_extends now fuel spec bodySchema lines out :
  input_examples now fuel spec bodySchema lines = Ret out -> extends lines out.
Proof.
  unfold input_examples. intros H.
  destruct (truthy bodySchema); [|inversion H; apply extends_refl].
  apply bind_ret in H. destruct H as [r [_ H]].
  apply bind_ret in H. destruct H as [f [_ H]].
  apply bind_ret in H. destruct H as [ks [_ H]].
  inversion H. destruct (0 <? List.length ks)%nat.
  - eapply extends_after, extends_app.
  - apply extends_app.
Qed.

Lemma output_section_extends now fuel spec responses lines out :
  output_section now fuel spec responses lines = Ret out -> extends lines out.
Proof.
  unfold output_section. intros H.
  destruct (0 <? List.length (own_entries responses))%nat; [|inversion H; apply extends_push].
  eapply forEach_extends; [|exact H].
  intros s x s' _ Hx. eapply response_block_extends, Hx.
Qed.



(** ** The title and the summary *)



(** ** Fuel only decides whether a call is cut short *)

Lemma settles_refl {A} (r : result A) : settles r r.
Proof. right. reflexivity. Qed.

Lemma settles_bind {A B} (m1 m2 : result A) (f1 f2 : A -> result B) :
  settles m1 m2 -> (forall a, settles (f1 a) (f2 a)) -> settles (bind m1 f1) (bind m2 f2).
Proof.
  intros [->| ->] Hf; [left; reflexivity|].
  destruct m1; simpl; [apply Hf | right; reflexivity | left; reflexivity].
Qed.

Lemma settles_forEach {A S} (b1 b2 : S -> A -> result S) l :
  (forall s x, settles (b1 s x) (b2 s x)) ->
  forall s, settles (forEach b1 l s) (forEach b2 l s).
Proof.
  intros Hb. induction l as [|x l IH]; intros s; simpl; [apply settles_refl|].
  apply settles_bind; [apply Hb | exact IH].
Qed.

#[local] Hint Resolve settles_refl : term.

Lemma generateExample_body_settles now self1 self2 v root b :
  (forall c, settles (self1 c root b) (self2 c root b)) ->
  settles (generateExample_body now self1 v root b) (generateExample_body now self2 v root b).
Proof.
  intros H. unfold generateExample_body.
  destruct (negb (truthy v)); auto with term.
  destruct (truthy (prop v "$ref")).
  { apply settles_bind; auto with term. intros ref.
    destruct (truthy (resolve root ref)); auto with term. }
  destruct (truthy (prop v "allOf")).
  { apply settles_bind; auto with term. intros subs.
    apply settles_bind; auto with term.
    apply settles_forEach. intros s x. unfold merge_step. apply settles_bind; auto with term. }
  destruct (truthy (prop v "anyOf") || truthy (prop v "oneOf")); auto.
  destruct (is_defined (prop v "example")); auto with term.
  destruct (is_defined (prop v "default")); auto with term.
  destruct (is_str "object" (prop v "type") || truthy (prop v "properties")).
  { apply settles_bind; auto with term.
    apply settles_forEach. intros s x. unfold add_property.
    apply settles_bind; auto with term. intros [|]; auto with term.
    apply settles_bind; auto with term. }
  destruct (is_str "array" (prop v "type")).
  { apply settles_bind; auto with term. }
  auto with term.
Qed.

Lemma parseSchema_body_settles self1 self2 v root lines depth :
  (forall c lines depth, settles (self1 c root lines depth) (self2 c root lines depth)) ->
  settles (parseSchema_body self1 v root lines depth) (parseSchema_body self2 v root lines depth).
Proof.
  intros H. unfold parseSchema_body.
  destruct (negb (truthy v)); auto with term.
  destruct (truthy (prop v "$ref")).
  { apply settles_bind; auto with term. intros ref.
    destruct (truthy (resolve root ref)); auto with term. }
  destruct (truthy (prop v "allOf") || truthy (prop v "anyOf") || truthy (prop v "oneOf")).
  { apply settles_bind; auto with term. intros subs. apply settles_forEach. auto. }
  destruct (is_str "object" (prop v "type") || truthy (prop v "properties")).
  { apply settles_forEach. intros s x. unfold describe_property.
    apply settles_bind; auto with term. intros isRequired.
    apply settles_bind; auto with term. intros _.
    destruct (is_str "object" (prop (snd x) "type") || truthy (prop (snd x) "properties")
              || truthy (prop (snd x) "$ref")); auto.
    destruct (is_str "array" (prop (snd x) "type") && truthy (prop (snd x) "items"));
      auto with term. }
  destruct (is_str "array" (prop v "type") && truthy (prop v "items")); auto.
  auto with term.
Qed.

(** A call that was not cut short gives the same outcome with more fuel. *)
Lemma generateExample_more_fuel now n m :
  n <= m -> forall v root b, settles (generateExample now n v root b) (generateExample now m v root b).
Proof.
  revert m. induction n as [|n IH]; intros m Hle v root b; [left; reflexivity|].
  destruct m as [|m]; [lia|].
  apply generateExample_body_settles. intros c. apply IH. lia.
Qed.

Lemma parseSchema_more_fuel n m :
  n <= m ->
  forall v root lines depth,
    settles (parseSchema n v root lines depth) (parseSchema m v root lines depth).
Proof.
  revert m. induction n as [|n IH]; intros m Hle v root lines depth; [left; reflexivity|].
  destruct m as [|m]; [lia|].
  apply parseSchema_body_settles. intros c l d. apply IH. lia.
Qed.

Lemma generateExample_stable now n m v root b :
  n <= m -> terminates (generateExample now n v root b) ->
  generateExample now m v root b = generateExample now n v root b.
Proof.
  intros Hle Ht. destruct (generateExample_more_fuel now n m Hle v root b) as [H|H];
    [contradiction | exact H].
Qed.

Lemma parseSchema_stable n m v root lines depth :
  n <= m -> terminates (parseSchema n v root lines depth) ->
  parseSchema m v root lines depth = parseSchema n v root lines depth.
Proof.
  intros Hle Ht. destruct (parseSchema_more_fuel n m Hle v root lines depth) as [H|H];
    [contradiction | exact H].
Qed.

(** ** The theorems at sample documents *)

Lemma finite_ref_chains_witness :
  ref_chains_within 1 pet_doc pet_ref = true
  /\ exists N, forall fuel, N <= fuel ->
       (forall onlyRequired,
          terminates (generateExample sample_now fuel pet_ref pet_doc onlyRequired))
       /\ (forall lines depth, terminates (parseSchema fuel pet_ref pet_doc lines depth)).
Proof.
  split; [reflexivity|].
  apply (finite_ref_chains_terminate sample_now pet_doc pet_ref 1). reflexivity.
Defined.




Lemma full_example_keys_witness :
  object_node pet_schema = true
  /\ key_order (keys (declared pet_schema)) = true
  /\ Forall (fun kv => returned (generateExample sample_now 1 (snd kv) VNull false))
       (declared pet_schema)
  /\ exists m,
       generateExample sample_now 2 pet_schema VNull false = Ret (VObj m)
       /\ keys m = filter own_name (keys (declared pet_schema))
       /\ Forall2 (fun kv kr => generateExample sample_now 1 (snd kv) VNull false
                                = Ret (snd kr))
            (filter (fun kv => own_name (fst kv)) (declared pet_schema)) m
       /\ (forallb own_name (keys (declared pet_schema)) = true ->
           keys m = keys (declared pet_schema)
           /\ List.length m = List.length (declared pet_schema)).
Proof.
  assert (H1 : object_node pet_schema = true) by reflexivity.
  assert (H2 : key_order (keys (declared pet_schema)) = true) by reflexivity.
  assert (H3 : Forall (fun kv => returned (generateExample sample_now 1 (snd kv) VNull false))
                 (declared pet_schema))
    by (repeat constructor; eexists; reflexivity).
  split; [exact H1|]. split; [exact H2|]. split; [exact H3|].
  exact (full_example_keys sample_now 1 pet_schema VNull H1 H2 H3).
Defined.

Lemma required_example_keys_witness :
  object_node pet_schema = true
  /\ key_order (keys (declared pet_schema)) = true
  /\ or_else (prop pet_schema "required") (VArr []) = VArr [VStr "id"]
  /\ Forall (fun kv => In (VStr (fst kv)) [VStr "id"] ->
                       returned (generateExample sample_now 1 (snd kv) VNull true))
       (declared pet_schema)
  /\ exists m,
       generateExample sample_now 2 pet_schema VNull true = Ret (VObj m)
       /\ keys m = filter (fun k => existsb (is_str k) [VStr "id"] && own_name k)
                     (keys (declared pet_schema))
       /\ (forall k, In k (keys m) -> In (VStr k) [VStr "id"])
       /\ ((forall k, In (VStr k) [VStr "id"] ->
                      In k (keys (declared pet_schema)) /\ k <> "__proto__") ->
           forall k, In k (keys m) <-> In (VStr k) [VStr "id"]).
Proof.
  assert (H1 : object_node pet_schema = true) by reflexivity.
  assert (H2 : key_order (keys (declared pet_schema)) = true) by reflexivity.
  assert (H3 : or_else (prop pet_schema "required") (VArr []) = VArr [VStr "id"])
    by reflexivity.
  assert (H4 : Forall (fun kv => In (VStr (fst kv)) [VStr "id"] ->
                                 returned (generateExample sample_now 1 (snd kv) VNull true))
                 (declared pet_schema))
    by (repeat constructor; intros _; eexists; reflexivity).
  split; [exact H1|]. split; [exact H2|]. split; [exact H3|]. split; [exact H4|].
  exact (required_example_keys sample_now 1 pet_schema VNull [VStr "id"] H1 H2 H3 H4).
Defined.


(** The end-to-end scenarios of the specification. *)

Example scenario_a_output :
  convert sample_now 0 scenario_a
  = Ret (join nl
           [ "# T"; "No description provided."; ""; "## Endpoints"; "";
             "### GET /x - No summary"; ""; "#### Input";
             "- No input parameters required."; ""; "#### Output";
             "**Response 200: ok**"; "  - No response body schema defined."; "";
             "#### Usage Examples"; ""; "##### cURL"; "```bash";
             "curl --request GET " ++ bsl ++ nl ++ "  --url https://api.example.com/x "
               ++ bsl ++ nl ++ "  --header " ++ dq ++ "Content-Type: application/json" ++ dq;
             "```"; ""; "---"; "" ]%string).
Proof. reflexivity. Qed.

Example scenario_b_examples :
  generateExample sample_now 2 scenario_b_schema VNull true = Ret (VObj [("a", VStr "string")])
  /\ generateExample sample_now 2 scenario_b_schema VNull false
     = Ret (VObj [("a", VStr "string"); ("b", VNum 0)]).
Proof. split; reflexivity. Qed.

(** A declared property named __proto__ gives no key: the full example of
    a node that declares a and __proto__ has the key a alone, and its
    required-only example, with __proto__ required, has none. *)
Example proto_property_creates_no_key :
  generateExample sample_now 2 proto_property_schema VNull false = Ret (VObj [("a", VNum 0)])
  /\ generateExample sample_now 2 proto_property_schema VNull true = Ret (VObj []).
Proof. split; reflexivity. Qed.

(** An array is an object in the engine's sense: as a child of allOf it
    contributes its indices as keys. *)
Example allOf_array_child :
  generateExample sample_now 3
    (VObj [("allOf", VArr [VObj [("type", VStr "array"); ("items", string_schema)]])])
    VNull false
  = Ret (VObj [("0", VStr "string")]).
Proof. reflexivity. Qed.

(** The decoder decides between the invalid-input error and the conversion
    of the decoded document. *)
Lemma localConvertToLlmTxt_decoded now JSON_parse fuel jsonContent :
  (JSON_parse jsonContent = None ->
   localConvertToLlmTxt now JSON_parse fuel jsonContent = Raise InvalidJSON)
  /\ (forall spec, JSON_parse jsonContent = Some spec ->
        localConvertToLlmTxt now JSON_parse fuel jsonContent = convert now fuel spec).
Proof.
  unfold localConvertToLlmTxt. split; [intros ->; reflexivity | intros spec ->; reflexivity].
Qed.

(** * Further properties of the engine *)

(** ** The describer appends indented lines *)

Lemma append_assoc (a b c : string) : ((a ++ b) ++ c = a ++ (b ++ c))%string.
Proof. induction a as [|x a IH]; simpl; [reflexivity | rewrite IH; reflexivity]. Qed.

Lemma prefix_append (a b : string) : prefix a (a ++ b)%string = true.
Proof.
  induction a as [|x a IH]; simpl; [destruct b; reflexivity|].
  destruct (ascii_dec x x) as [_|H]; [exact IH | contradiction H; reflexivity].
Qed.

Lemma indent_add d k : indent (d + k) = (indent d ++ indent k)%string.
Proof.
  unfold indent. induction d as [|d IH]; simpl; [reflexivity|]. rewrite IH. reflexivity.
Qed.

Lemma indented_line d k rest : indented d (indent (d + k) ++ rest)%string = true.
Proof. unfold indented. rewrite indent_add, append_assoc. apply prefix_append. Qed.

Lemma indented_line_0 d rest : indented d (indent d ++ rest)%string = true.
Proof. unfold indented. apply prefix_append. Qed.

Lemma indented_deeper d k l : indented (d + k) l = true -> indented d l = true.
Proof.
  unfold indented. rewrite indent_add. generalize (indent d) as a, (indent k) as b.
  intros a. revert l. induction a as [|x a IH]; intros l b; simpl.
  - destruct l; reflexivity.
  - destruct l as [|y l]; [discriminate|]. simpl.
    destruct (ascii_dec x y); [apply IH | discriminate].
Qed.

Lemma appends_at_refl d lines : appends_at d lines lines.
Proof. exists []. split; [symmetry; apply app_nil_r | constructor]. Qed.

Lemma appends_at_trans d a b c : appends_at d a b -> appends_at d b c -> appends_at d a c.
Proof.
  intros [x [-> Hx]] [y [-> Hy]]. exists (x ++ y). split; [symmetry; apply app_assoc|].
  apply Forall_app. split; assumption.
Qed.

Lemma appends_at_push d lines l : indented d l = true -> appends_at d lines (push lines l).
Proof. intros H. exists [l]. split; [reflexivity | constructor; [exact H | constructor]]. Qed.

Lemma appends_at_deeper d k a b : appends_at (d + k) a b -> appends_at d a b.
Proof.
  intros [x [-> Hx]]. exists x. split; [reflexivity|].
  eapply Forall_impl; [|exact Hx]. intros l. apply indented_deeper.
Qed.

Lemma forEach_appends_at {A} d (body : list string -> A -> result (list string)) l :
  (forall s x s', In x l -> body s x = Ret s' -> appends_at d s s') ->
  forall s s', forEach body l s = Ret s' -> appends_at d s s'.
Proof.
  induction l as [|x l IH]; intros H s s' Hs; simpl in Hs.
  - inversion Hs. apply appends_at_refl.
  - apply bind_ret in Hs. destruct Hs as [s1 [H1 H2]].
    eapply appends_at_trans; [eapply H; [left; reflexivity | exact H1]|].
    eapply IH; [|exact H2]. intros s0 y s0' Hy. apply H. right. exact Hy.
Qed.

Lemma parseSchema_body_appends_at self v root :
  (forall c lines depth out, self c root lines depth = Ret out -> appends_at depth lines out) ->
  forall lines depth out,
    parseSchema_body self v root lines depth = Ret out -> appends_at depth lines out.
Proof.
  intros Hself lines depth out H. unfold parseSchema_body in H.
  destruct (negb (truthy v)); [inversion H; apply appends_at_refl|].
  destruct (truthy (prop v "$ref")).
  { apply bind_ret in H. destruct H as [ref [_ H]].
    destruct (truthy (resolve root ref)); [eapply Hself, H|].
    inversion H. apply appends_at_push, indented_line_0. }
  destruct (truthy (prop v "allOf") || truthy (prop v "anyOf") || truthy (prop v "oneOf")).
  { apply bind_ret in H. destruct H as [subs [_ H]].
    eapply appends_at_trans; [apply appends_at_push, indented_line_0|].
    eapply forEach_appends_at; [|exact H].
    intros s x s' _ Hx. eapply appends_at_deeper, Hself, Hx. }
  destruct (is_str "object" (prop v "type") || truthy (prop v "properties")).
  { eapply forEach_appends_at; [|exact H].
    intros s x s' _ Hx. unfold describe_property in Hx.
    apply bind_ret in Hx. destruct Hx as [isRequired [_ Hx]].
    apply bind_ret in Hx. destruct Hx as [t [_ Hx]].
    eapply appends_at_trans; [apply appends_at_push; unfold property_line; apply indented_line_0|].
    destruct (is_str "object" (prop (snd x) "type") || truthy (prop (snd x) "properties")
              || truthy (prop (snd x) "$ref")).
    - eapply appends_at_deeper, Hself, Hx.
    - destruct (is_str "array" (prop (snd x) "type") && truthy (prop (snd x) "items")).
      + eapply appends_at_trans; [apply appends_at_push, indented_line|].
        eapply appends_at_deeper, Hself, Hx.
      + inversion Hx. apply appends_at_refl. }
  destruct (is_str "array" (prop v "type") && truthy (prop v "items")).
  { eapply appends_at_trans; [apply appends_at_push, indented_line_0|].
    eapply appends_at_deeper, Hself, H. }
  destruct (truthy (prop v "type")); inversion H;
    [apply appends_at_push, indented_line_0 | apply appends_at_refl].
Qed.

(** X1. Whatever the describer returns is the lines it was given, unchanged,
    followed by lines that all begin with the indentation of its depth (two
    spaces per level): nested schemas are never printed to the left of
    their parent. *)
Theorem describer_appends_indented_lines fuel schema root lines depth out :
  parseSchema fuel schema root lines depth = Ret out ->
  exists more,
    out = lines ++ more
    /\ Forall (fun l => prefix (repeat_str "  " depth) l = true) more.
Proof.
  revert schema root lines depth out.
  induction fuel as [|fuel IH]; intros v root lines depth out H; [discriminate H|].
  exact (parseSchema_body_appends_at (parseSchema fuel) v root
           (fun c l d o => IH c root l d o) lines depth out H).
Qed.

(** ** One line per flat property *)

Lemma describe_flat_property self root depth reqs lines k val :
  flat_property val = true ->
  describe_property self root depth (VArr reqs) lines (k, val)
  = Ret (lines ++ [property_line depth k (existsb (is_str k) reqs) val]).
Proof.
  unfold flat_property. intros H.
  apply andb_prop in H. destruct H as [H Harr]. apply andb_prop in H. destruct H as [Hnn Hobj].
  apply negb_true_iff in Hnn, Hobj, Harr.
  unfold describe_property. simpl.
  assert (Hget : get val "type" = Ret (prop val "type")) by (destruct val; try discriminate Hnn; reflexivity).
  rewrite Hget. simpl. rewrite Hobj, Harr. reflexivity.
Qed.

Lemma describe_flat_properties self root depth reqs ps :
  forallb (fun kv => flat_property (snd kv)) ps = true ->
  forall lines,
    forEach (describe_property self root depth (VArr reqs)) ps lines
    = Ret (lines ++ map (fun kv => property_line depth (fst kv) (existsb (is_str (fst kv)) reqs)
                                     (snd kv)) ps).
Proof.
  induction ps as [|[k val] ps IH]; intros H lines; simpl.
  - rewrite app_nil_r. reflexivity.
  - simpl in H. apply andb_prop in H. destruct H as [Hk Hps].
    rewrite (describe_flat_property _ _ _ _ _ _ _ Hk). simpl.
    rewrite (IH Hps), <- app_assoc. reflexivity.
Qed.


(** ** The segments of a reference *)

Lemma split_no_slash s : has_slash s = false -> split "/" s = [s].
Proof.
  induction s as [|c s IH]; simpl; [reflexivity|].
  destruct (Ascii.eqb c "/"); simpl; [discriminate|]. intros H. rewrite (IH H). reflexivity.
Qed.

Lemma split_nonempty s : split "/" s <> [].
Proof.
  destruct s as [|c s]; simpl; [discriminate|].
  destruct (Ascii.eqb c "/"); [discriminate|]. destruct (split "/" s); discriminate.
Qed.

Lemma split_segment a b :
  has_slash a = false -> split "/" (a ++ "/" ++ b)%string = a :: split "/" b.
Proof.
  induction a as [|c a IH]; simpl; [reflexivity|].
  destruct (Ascii.eqb c "/"); simpl; [discriminate|]. intros H.
  change (a ++ String "/" b)%string with (a ++ "/" ++ b)%string. rewrite (IH H). reflexivity.
Qed.

Lemma split_join segs :
  segs <> [] -> forallb (fun s => negb (has_slash s)) segs = true ->
  split "/" (join "/" segs) = segs.
Proof.
  induction segs as [|a segs IH]; [intros H; contradiction H; reflexivity|].
  intros _ H. simpl in H. apply andb_prop in H. destruct H as [Ha Hs].
  apply negb_true_iff in Ha. destruct segs as [|b segs].
  - simpl. apply split_no_slash, Ha.
  - change (join "/" (a :: b :: segs)) with (a ++ "/" ++ join "/" (b :: segs))%string.
    rewrite (split_segment _ _ Ha), IH; [reflexivity | discriminate | exact Hs].
Qed.

Lemma strip_hash s : replace_first "#/" "" ("#/" ++ s) = s.
Proof. simpl. destruct s; reflexivity. Qed.

(** X3. A reference written as #/ followed by segments joined by slashes,
    none of which contains a slash, resolves to the value reached from the
    root by reading the segments one after the other with optional
    chaining. *)
Theorem reference_resolves_segment_by_segment root segs :
  segs <> [] ->
  forallb (fun s => negb (has_slash s)) segs = true ->
  refPath ("#/" ++ join "/" segs) = segs
  /\ resolve root ("#/" ++ join "/" segs) = fold_left opt segs root.
Proof.
  intros Hne Hs.
  assert (Hp : refPath ("#/" ++ join "/" segs) = segs).
  { unfold refPath. rewrite strip_hash. apply split_join; assumption. }
  split; [exact Hp|]. unfold resolve, walk. rewrite Hp. reflexivity.
Qed.

Lemma split_segments_no_slash s : Forall (fun x => has_slash x = false) (split "/" s).
Proof.
  induction s as [|c s IH]; simpl; [repeat constructor|].
  destruct (Ascii.eqb c "/") eqn:E; [constructor; [reflexivity | exact IH]|].
  destruct (split "/" s) as [|x xs]; [repeat constructor; simpl; rewrite E; reflexivity|].
  inversion IH as [|? ? Hx Hxs]; subst. constructor; [|exact Hxs].
  simpl. rewrite E. exact Hx.
Qed.

Lemma join_split s : join "/" (split "/" s) = s.
Proof.
  induction s as [|c s IH]; [reflexivity|].
  pose proof (split_nonempty s) as Hne. simpl split.
  destruct (Ascii.eqb c "/") eqn:E.
  - apply Ascii.eqb_eq in E. subst c.
    destruct (split "/" s) as [|x xs]; [contradiction Hne; reflexivity|].
    change (join "/" ("" :: x :: xs)) with ("" ++ "/" ++ join "/" (x :: xs))%string.
    rewrite IH. reflexivity.
  - destruct (split "/" s) as [|x xs]; [contradiction Hne; reflexivity|].
    destruct xs as [|y ys].
    + simpl in *. rewrite IH. reflexivity.
    + change (join "/" (String c x :: y :: ys))
        with (String c (join "/" (x :: y :: ys))).
      rewrite IH. reflexivity.
Qed.

(** X4. Whatever the reference, its path has at least one segment, no
    segment contains a slash, and the segments joined by slashes give back
    the text of the reference without its first #/: the text is cut at
    every slash as it is and no escape is decoded, so no step of the walk
    reads a key that contains a slash. *)
Theorem reference_segments_have_no_slash ref :
  refPath ref <> []
  /\ Forall (fun s => has_slash s = false) (refPath ref)
  /\ join "/" (refPath ref) = replace_first "#/" "" ref
  /\ forall k, has_slash k = true -> ~ In k (refPath ref).
Proof.
  split; [apply split_nonempty|]. split; [apply split_segments_no_slash|].
  split; [apply join_split|].
  intros k Hk Hin.
  pose proof (split_segments_no_slash (replace_first "#/" "" ref)) as Hs.
  rewrite Forall_forall in Hs. specialize (Hs k Hin). rewrite Hk in Hs. discriminate Hs.
Qed.

(** ** Method keys *)




Lemma upper_lower_ascii c : upper_ascii (lower_ascii c) = upper_ascii c.
Proof.
  destruct c as [[] [] [] [] [] [] [] []]; reflexivity.
Qed.

Lemma toUpperCase_toLowerCase s : toUpperCase (toLowerCase s) = toUpperCase s.
Proof.
  induction s as [|c s IH]; [reflexivity|].
  change (toUpperCase (toLowerCase (String c s)))
    with (String (upper_ascii (lower_ascii c)) (toUpperCase (toLowerCase s))).
  change (toUpperCase (String c s)) with (String (upper_ascii c) (toUpperCase s)).
  rewrite upper_lower_ascii, IH. reflexivity.
Qed.

(** X6. The case of a method key does not matter: a key that agrees, once
    lower-cased, with an accepted key is accepted too, and the operation
    blocks written for the two (heading and cURL command included) are the
    same. *)
Theorem method_case_is_irrelevant now fuel spec baseUrl path method method' op lines :
  toLowerCase method = toLowerCase method' ->
  is_http_method (toLowerCase method) = true ->
  is_http_method (toLowerCase method') = true
  /\ operation_block now fuel spec baseUrl path method op lines
     = operation_block now fuel spec baseUrl path method' op lines.
Proof.
  intros H Hm. split; [rewrite <- H; exact Hm|].
  assert (Hu : toUpperCase method = toUpperCase method').
  { rewrite <- (toUpperCase_toLowerCase method), H. apply toUpperCase_toLowerCase. }
  unfold operation_block, curl_command. rewrite Hu. reflexivity.
Qed.

(** ** The frame of an operation block *)

(** Every operation block that is written leaves the earlier lines as they
    are, opens with its heading and closes with the end of the cURL fence,
    an empty line, a horizontal rule and an empty line. *)
Lemma operation_block_frame now fuel spec baseUrl path method op lines out :
  operation_block now fuel spec baseUrl path method op lines = Ret out ->
  exists block, out = lines ++ block /\ framed (path, method, op) block.
Proof.
  unfold operation_block. intros H.
  apply bind_ret in H. destruct H as [s [Hs H]].
  assert (Hsum : s = prop op "summary").
  { destruct op; simpl in Hs; try discriminate Hs; inversion Hs; reflexivity. }
  subst s.
  apply bind_ret in H. destruct H as [l1 [H1 H]].
  apply bind_ret in H. destruct H as [[l2 bodySchema] [H2 H]].
  apply bind_ret in H. destruct H as [l3 [H3 H]].
  apply bind_ret in H. destruct H as [l4 [H4 H]].
  apply bind_ret in H. destruct H as [cmd [_ H]].
  apply parameters_section_extends in H1.
  apply request_body_section_extends in H2.
  apply input_examples_extends in H3.
  apply output_section_extends in H4.
  simpl fst in *. simpl snd in *.
  destruct H1 as [m1 ->]. destruct H2 as [m2 ->]. destruct H3 as [m3 ->].
  destruct H4 as [m4 ->]. inversion H. clear H.
  set (middle :=
         (if truthy (prop op "description") then [join_item (prop op "description")] else [])
         ++ [""; "#### Input"] ++ m1 ++ m2
         ++ (if is_zero (prop (or_else (prop op "parameters") (VArr [])) "length")
                && negb (truthy (prop op "requestBody"))
             then ["- No input parameters required."] else [])
         ++ [""] ++ m3 ++ ["#### Output"] ++ m4
         ++ ["#### Usage Examples"; ""; "##### cURL"; "```bash"; cmd]).
  exists (operation_heading (path, method, op) :: middle ++ ["```"; ""; "---"; ""]).
  split; [|exists middle; reflexivity].
  subst middle. unfold push, operation_heading. cbn [fst snd].
  destruct (truthy (prop op "description"));
    destruct (is_zero (prop (or_else (prop op "parameters") (VArr [])) "length")
              && negb (truthy (prop op "requestBody")));
    repeat rewrite <- app_assoc; reflexivity.
Qed.


(** ** Properties that are not required *)

Lemma skip_unlisted (self : value -> value -> bool -> result value) root reqs ps acc :
  forallb (fun kv => negb (existsb (is_str (fst kv)) reqs)) ps = true ->
  forEach (add_property self root true (VArr reqs)) ps acc = Ret acc.
Proof.
  induction ps as [|[k s] ps IH]; simpl; intros H; [reflexivity|].
  apply andb_prop in H. destruct H as [Hk H]. apply negb_true_iff in Hk.
  rewrite add_property_eq. unfold kept. rewrite Hk. simpl. apply IH, H.
Qed.

(** X8. In required-only mode the synthesizer does not visit a property
    that the required list does not name: for an object node none of whose
    declared properties is listed, the example is the empty object, whatever
    the schemas of the properties are (cyclic ones included), with no more
    fuel than the node itself needs. *)
Theorem unrequired_properties_are_not_visited now fuel schema root reqs :
  object_node schema = true ->
  or_else (prop schema "required") (VArr []) = VArr reqs ->
  forallb (fun kv => negb (existsb (is_str (fst kv)) reqs)) (declared schema) = true ->
  generateExample now (S fuel) schema root true = Ret (VObj []).
Proof.
  intros Hnode Hreq Hnone.
  rewrite (generateExample_object now fuel schema root true Hnode), Hreq.
  rewrite (skip_unlisted _ root reqs _ [] Hnone). reflexivity.
Qed.

(** ** The example of a response is guarded *)

(** X9. Once the schema of a response is described and its example is
    obtained, the Example Response step cannot raise, whatever the example
    is: the block is shown exactly when the example is truthy and has own
    keys, so undefined, null, a number, a boolean, an empty object and an
    empty list show nothing, and the response ends with an empty line. *)
Theorem response_example_is_guarded now fuel spec lines code response described respEx :
  is_nullish response = false ->
  truthy (content_schema (or_else (prop response "content") (VObj []))) = true ->
  parseSchema fuel (content_schema (or_else (prop response "content") (VObj []))) spec
    (lines ++ [("**Response " ++ code ++ ": "
                ++ ToString (or_else (prop response "description") (VStr "No description"))
                ++ "**")%string]) 1 = Ret described ->
  response_example now fuel spec (or_else (prop response "content") (VObj []))
    (content_schema (or_else (prop response "content") (VObj []))) = Ret respEx ->
  response_block now fuel spec lines code response
  = Ret (described
         ++ (if truthy respEx && (0 <? List.length (own_entries respEx))%nat
             then example_response_lines respEx else [])
         ++ [""]).
Proof.
  intros Hresp Hschema Hdesc Hex.
  assert (Hd : get response "description" = Ret (prop response "description")).
  { destruct response; try discriminate Hresp; reflexivity. }
  unfold response_block. rewrite Hd. cbn [bind]. rewrite Hschema.
  unfold push. rewrite Hdesc. cbn [bind]. rewrite Hex. cbn [bind].
  destruct (truthy respEx) eqn:Ht; cbn [andb bind].
  - assert (Hk : Object_keys respEx = Ret (keys (own_entries respEx))).
    { destruct respEx; try discriminate Ht; reflexivity. }
    rewrite Hk. cbn [bind]. unfold keys. rewrite length_map.
    destruct (0 <? List.length (own_entries respEx))%nat; cbn [bind].
    + rewrite <- app_assoc. reflexivity.
    + reflexivity.
  - reflexivity.
Qed.

(** ** The invalid-input error *)

Lemma decoded_ret {A} (a : A) : decoded (Ret a).
Proof. discriminate. Qed.

Lemma decoded_type_error {A} : decoded (@Raise A TypeError).
Proof. discriminate. Qed.

Lemma decoded_bind {A B} (m : result A) (f : A -> result B) :
  decoded m -> (forall a, decoded (f a)) -> decoded (bind m f).
Proof.
  unfold decoded. destruct m as [a|e|]; simpl; intros Hm Hf; [apply Hf | | discriminate].
  intros E. apply Hm. inversion E. reflexivity.
Qed.

Lemma decoded_forEach {A S} (body : S -> A -> result S) l :
  (forall s x, decoded (body s x)) -> forall s, decoded (forEach body l s).
Proof.
  induction l as [|x l IH]; intros H s; simpl; [apply decoded_ret|].
  apply decoded_bind; [apply H | intros s'; apply IH, H].
Qed.

Lemma decoded_get v k : decoded (get v k).
Proof. destruct v; discriminate. Qed.

Lemma decoded_ref_text v : decoded (ref_text v).
Proof. destruct v; discriminate. Qed.

Lemma decoded_as_array v : decoded (as_array v).
Proof. destruct v; discriminate. Qed.

Lemma decoded_includes v k : decoded (includes v k).
Proof. destruct v; discriminate. Qed.

Lemma decoded_Object_entries v : decoded (Object_entries v).
Proof. destruct v; discriminate. Qed.

Lemma decoded_Object_keys v : decoded (Object_keys v).
Proof. destruct v; discriminate. Qed.

Create HintDb decoded.
#[local] Hint Resolve decoded_ret decoded_type_error decoded_get decoded_ref_text
  decoded_as_array decoded_includes decoded_Object_entries decoded_Object_keys : decoded.

Ltac decoded_steps :=
  repeat first
    [ solve [auto with decoded]
    | apply decoded_bind; [|intros ?]
    | apply decoded_forEach; intros ? ?
    | match goal with
      | |- decoded (if ?c then _ else _) => destruct c
      | |- decoded (match ?c with _ => _ end) => destruct c
      end ].

Lemma generateExample_body_decoded now self v root b :
  (forall c r o, decoded (self c r o)) -> decoded (generateExample_body now self v root b).
Proof.
  intros H. unfold generateExample_body, merge_step, add_property. decoded_steps.
Qed.

Lemma parseSchema_body_decoded self v root lines depth :
  (forall c r l d, decoded (self c r l d)) -> decoded (parseSchema_body self v root lines depth).
Proof.
  intros H. unfold parseSchema_body, describe_property. decoded_steps.
Qed.

Lemma generateExample_decoded now fuel : forall v root b, decoded (generateExample now fuel v root b).
Proof.
  induction fuel as [|fuel IH]; intros v root b; [discriminate|].
  change (generateExample now (S fuel)) with (generateExample_body now (generateExample now fuel)).
  apply generateExample_body_decoded, IH.
Qed.

Lemma parseSchema_decoded fuel : forall v root l d, decoded (parseSchema fuel v root l d).
Proof.
  induction fuel as [|fuel IH]; intros v root l d; [discriminate|].
  change (parseSchema (S fuel)) with (parseSchema_body (parseSchema fuel)).
  apply parseSchema_body_decoded, IH.
Qed.

#[local] Hint Resolve generateExample_decoded parseSchema_decoded : decoded.

Lemma operation_block_decoded now fuel spec baseUrl path method op lines :
  decoded (operation_block now fuel spec baseUrl path method op lines).
Proof.
  unfold operation_block, parameters_section, parameter_line, request_body_section,
    input_examples, output_section, response_block, response_example, curl_command.
  decoded_steps.
Qed.

Lemma convert_decoded now fuel spec : decoded (convert now fuel spec).
Proof.
  pose proof (operation_block_decoded now fuel spec) as Hop.
  unfold convert. decoded_steps.
Qed.

(** X10. The invalid-input error is raised when the decoder rejects the
    text, and only then: whatever a decoded document holds, the conversion
    returns, is cut short or raises a TypeError, never the invalid-input
    error. *)
Theorem invalid_input_only_from_decoder now JSON_parse fuel jsonContent :
  localConvertToLlmTxt now JSON_parse fuel jsonContent = Raise InvalidJSON
  <-> JSON_parse jsonContent = None.
Proof.
  unfold localConvertToLlmTxt. destruct (JSON_parse jsonContent) as [spec|]; split.
  - intros H. exfalso. exact (convert_decoded now fuel spec H).
  - discriminate.
  - reflexivity.
  - reflexivity.
Qed.

(** ** Documents whose keywords have the expected kinds *)

Lemma well_formed_node v : well_formed v = true -> node_ok v = true.
Proof.
  intros H.
  assert (E : well_formed v
              = node_ok v && match v with
                             | VArr l => forallb well_formed l
                             | VObj m => forallb (fun kv => well_formed (snd kv)) m
                             | _ => true
                             end) by (destruct v; reflexivity).
  rewrite E in H. apply andb_prop in H. apply H.
Qed.

Lemma well_formed_text s : well_formed (VStr s) = true.
Proof. reflexivity. Qed.

Lemma well_formed_member l x : well_formed (VArr l) = true -> In x l -> well_formed x = true.
Proof.
  intros H Hin.
  change (well_formed (VArr l)) with (node_ok (VArr l) && forallb well_formed l) in H.
  apply andb_prop in H. destruct H as [_ H].
  rewrite forallb_forall in H. apply H, Hin.
Qed.

Lemma well_formed_field m kv :
  well_formed (VObj m) = true -> In kv m -> well_formed (snd kv) = true.
Proof.
  intros H Hin.
  change (well_formed (VObj m))
    with (node_ok (VObj m) && forallb (fun kv => well_formed (snd kv)) m) in H.
  apply andb_prop in H. destruct H as [_ H].
  rewrite forallb_forall in H. apply (H kv Hin).
Qed.

Lemma well_formed_nth l n : well_formed (VArr l) = true -> well_formed (nth n l VUndefined) = true.
Proof.
  intros H. destruct (nth_in_or_default n l VUndefined) as [Hin|E]; [|rewrite E; reflexivity].
  eapply well_formed_member; eassumption.
Qed.

Lemma well_formed_chars s n : well_formed (nth n (chars s) VUndefined) = true.
Proof.
  destruct (nth_in_or_default n (chars s) VUndefined) as [Hin|E]; [|rewrite E; reflexivity].
  remember (nth n (chars s) VUndefined) as x eqn:Ex. clear Ex.
  unfold chars in Hin. apply in_map_iff in Hin. destruct Hin as [c [<- _]]. reflexivity.
Qed.

Lemma well_formed_prop v k : well_formed v = true -> well_formed (prop v k) = true.
Proof.
  intros H. destruct v as [| |b|n|s|l|l]; try reflexivity.
  - simpl. destruct (k =? "length"); [reflexivity|].
    destruct (array_index k); [apply well_formed_chars | reflexivity].
  - simpl prop. destruct (k =? "length"); [reflexivity|].
    destruct (array_index k); [apply well_formed_nth, H | reflexivity].
  - simpl prop. destruct (lookup k l) as [x|] eqn:E; [|reflexivity].
    apply lookup_in in E. apply (well_formed_field _ _ H E).
Qed.

Lemma well_formed_opt v k : well_formed v = true -> well_formed (opt v k) = true.
Proof. intros H. destruct v; try reflexivity; apply (well_formed_prop _ k H). Qed.

Lemma well_formed_walk segments : forall v, well_formed v = true -> well_formed (walk v segments) = true.
Proof.
  unfold walk. induction segments as [|s l IH]; intros v H; simpl; [exact H|].
  apply IH, well_formed_opt, H.
Qed.

Lemma well_formed_resolve root ref : well_formed root = true -> well_formed (resolve root ref) = true.
Proof. apply well_formed_walk. Qed.

Lemma well_formed_or_else a b :
  well_formed a = true -> well_formed b = true -> well_formed (or_else a b) = true.
Proof. unfold or_else. destruct (truthy a); auto. Qed.

Lemma well_formed_indexed l : forall i kv,
  (forall x, In x l -> well_formed x = true) ->
  In kv (indexed_from i l) -> well_formed (snd kv) = true.
Proof.
  induction l as [|x l IH]; intros i kv H [].
  - subst kv. apply H. left. reflexivity.
  - eapply IH; [|eassumption]. intros y Hy. apply H. right. exact Hy.
Qed.

Lemma well_formed_entry v kv :
  well_formed v = true -> In kv (own_entries v) -> well_formed (snd kv) = true.
Proof.
  intros H Hin. destruct v; simpl in Hin; try contradiction.
  - eapply well_formed_indexed; [|exact Hin]. intros x Hx.
    unfold chars in Hx. apply in_map_iff in Hx. destruct Hx as [c [<- _]]. reflexivity.
  - eapply well_formed_indexed; [|exact Hin]. intros x Hx.
    eapply well_formed_member; eassumption.
  - eapply well_formed_field; eassumption.
Qed.

Lemma well_formed_declared v kv :
  well_formed v = true -> In kv (declared v) ->
  well_formed (snd kv) = true /\ is_nullish (snd kv) = false.
Proof.
  intros H Hin. split.
  - unfold declared in Hin. eapply well_formed_entry; [|exact Hin].
    apply well_formed_or_else; [apply well_formed_prop, H | reflexivity].
  - apply well_formed_node in H. unfold node_ok in H.
    apply andb_prop in H. destruct H as [_ H]. rewrite forallb_forall in H.
    apply negb_true_iff, H, Hin.
Qed.

Lemma raise_free_ret {A} (a : A) : raise_free (Ret a).
Proof. intros e. discriminate. Qed.

Lemma raise_free_bind {A B} (m : result A) (f : A -> result B) :
  raise_free m -> (forall a, m = Ret a -> raise_free (f a)) -> raise_free (bind m f).
Proof.
  destruct m as [a|e|]; simpl; intros Hm Hf.
  - apply Hf. reflexivity.
  - contradiction (Hm e). reflexivity.
  - intros e. discriminate.
Qed.

Lemma raise_free_forEach {A S} (body : S -> A -> result S) l :
  (forall s x, In x l -> raise_free (body s x)) ->
  forall s, raise_free (forEach body l s).
Proof.
  induction l as [|x l IH]; intros H s; simpl; [apply raise_free_ret|].
  apply raise_free_bind; [apply H; left; reflexivity|].
  intros s' _. apply IH. intros s0 y Hy. apply H. right. exact Hy.
Qed.

Lemma falsy_or_truthy p v : falsy_or p v = true -> truthy v = true -> p v = true.
Proof. unfold falsy_or. intros H Ht. rewrite Ht in H. exact H. Qed.

Lemma ref_text_of_text v : is_text v = true -> exists s, v = VStr s /\ ref_text v = Ret s.
Proof. destruct v; try discriminate. intros _. eauto. Qed.

Lemma as_array_of_list v : isArray v = true -> exists l, v = VArr l /\ as_array v = Ret l.
Proof. destruct v; try discriminate. intros _. eauto. Qed.

Lemma includes_required v k :
  falsy_or (fun r => isArray r || is_text r) (prop v "required") = true ->
  raise_free (includes (or_else (prop v "required") (VArr [])) k).
Proof.
  unfold falsy_or, or_else. destruct (truthy (prop v "required")); simpl; intros H.
  - destruct (prop v "required"); try discriminate H; apply raise_free_ret.
  - apply raise_free_ret.
Qed.

Create HintDb wf.
#[local] Hint Resolve raise_free_ret well_formed_prop well_formed_resolve
  well_formed_or_else well_formed_text : wf.

Ltac node_facts H :=
  let N := fresh "N" in
  pose proof (well_formed_node _ H) as N; unfold node_ok in N;
  repeat (let X := fresh "N" in apply andb_prop in N; destruct N as [N X]).

Lemma generateExample_body_raise_free now self v root b :
  well_formed root = true -> well_formed v = true ->
  (forall c o, well_formed c = true -> raise_free (self c root o)) ->
  raise_free (generateExample_body now self v root b).
Proof.
  intros Hroot Hv H. node_facts Hv. unfold generateExample_body.
  destruct (negb (truthy v)); auto with wf.
  destruct (truthy (prop v "$ref")) eqn:Tref.
  { destruct (ref_text_of_text _ (falsy_or_truthy _ _ N Tref)) as [s [_ ->]]. simpl.
    destruct (truthy (resolve root s)); auto with wf. }
  destruct (truthy (prop v "allOf")) eqn:Tall.
  { destruct (as_array_of_list _ (falsy_or_truthy _ _ N4 Tall)) as [l [El ->]]. simpl.
    apply raise_free_bind; [|auto with wf].
    apply raise_free_forEach. intros s x Hx. unfold merge_step.
    apply raise_free_bind; [|auto with wf]. apply H.
    apply (well_formed_member l); [rewrite <- El; auto with wf | exact Hx]. }
  destruct (truthy (prop v "anyOf") || truthy (prop v "oneOf")); auto with wf.
  destruct (is_defined (prop v "example")); auto with wf.
  destruct (is_defined (prop v "default")); auto with wf.
  destruct (is_str "object" (prop v "type") || truthy (prop v "properties")).
  { apply raise_free_bind; [|auto with wf].
    apply raise_free_forEach. intros s x Hx. unfold add_property.
    apply raise_free_bind.
    - destruct b; [|auto with wf].
      apply raise_free_bind; [apply includes_required; assumption | auto with wf].
    - intros [|] _; [auto with wf|].
      apply raise_free_bind; [|auto with wf].
      apply H. apply (well_formed_declared v x Hv Hx). }
  destruct (is_str "array" (prop v "type")).
  { apply raise_free_bind; auto with wf. }
  destruct (truthy (prop v "enum")); auto with wf.
Qed.

Lemma parseSchema_body_raise_free self v root lines depth :
  well_formed root = true -> well_formed v = true ->
  (forall c l d, well_formed c = true -> raise_free (self c root l d)) ->
  raise_free (parseSchema_body self v root lines depth).
Proof.
  intros Hroot Hv H. node_facts Hv. unfold parseSchema_body.
  destruct (negb (truthy v)); auto with wf.
  destruct (truthy (prop v "$ref")) eqn:Tref.
  { destruct (ref_text_of_text _ (falsy_or_truthy _ _ N Tref)) as [s [_ ->]]. simpl.
    destruct (truthy (resolve root s)); auto with wf. }
  destruct (truthy (prop v "allOf") || truthy (prop v "anyOf") || truthy (prop v "oneOf"))
    eqn:Tcomp.
  { assert (Hl : exists l, or_else (prop v "allOf") (or_else (prop v "anyOf") (prop v "oneOf"))
                           = VArr l).
    { unfold or_else.
      destruct (truthy (prop v "allOf")) eqn:T1;
        [destruct (as_array_of_list _ (falsy_or_truthy _ _ N4 T1)) as [l [-> _]]; eauto|].
      destruct (truthy (prop v "anyOf")) eqn:T2;
        [destruct (as_array_of_list _ (falsy_or_truthy _ _ N3 T2)) as [l [-> _]]; eauto|].
      destruct (truthy (prop v "oneOf")) eqn:T3; [|discriminate Tcomp].
      destruct (as_array_of_list _ (falsy_or_truthy _ _ N2 T3)) as [l [-> _]]; eauto. }
    destruct Hl as [l El].
    assert (Hwf : well_formed (VArr l) = true) by (rewrite <- El; auto 6 with wf).
    rewrite El. simpl.
    apply raise_free_forEach. intros s x Hx. apply H.
    apply (well_formed_member l); assumption. }
  destruct (is_str "object" (prop v "type") || truthy (prop v "properties")).
  { apply raise_free_forEach. intros s x Hx. unfold describe_property.
    destruct (well_formed_declared v x Hv Hx) as [Hwx Hnx].
    apply raise_free_bind; [apply includes_required; assumption|]. intros isRequired _.
    apply raise_free_bind; [destruct (snd x); try discriminate Hnx; apply raise_free_ret|].
    intros _ _.
    destruct (is_str "object" (prop (snd x) "type") || truthy (prop (snd x) "properties")
              || truthy (prop (snd x) "$ref")); auto with wf.
    destruct (is_str "array" (prop (snd x) "type") && truthy (prop (snd x) "items"));
      auto with wf. }
  destruct (is_str "array" (prop v "type") && truthy (prop v "items")); auto with wf.
  destruct (truthy (prop v "type")); auto with wf.
Qed.

Lemma generateExample_raise_free now root :
  well_formed root = true ->
  forall fuel v b, well_formed v = true -> raise_free (generateExample now fuel v root b).
Proof.
  intros Hroot. induction fuel as [|fuel IH]; intros v b Hv; [intros e; discriminate|].
  change (generateExample now (S fuel)) with (generateExample_body now (generateExample now fuel)).
  apply generateExample_body_raise_free; auto.
Qed.

Lemma parseSchema_raise_free root :
  well_formed root = true ->
  forall fuel v l d, well_formed v = true -> raise_free (parseSchema fuel v root l d).
Proof.
  intros Hroot. induction fuel as [|fuel IH]; intros v l d Hv; [intros e; discriminate|].
  change (parseSchema (S fuel)) with (parseSchema_body (parseSchema fuel)).
  apply parseSchema_body_raise_free; auto.
Qed.

Lemma returned_of {A} (r : result A) : terminates r -> raise_free r -> returned r.
Proof.
  destruct r as [a|e|]; intros Ht Hr.
  - exists a. reflexivity.
  - contradiction (Hr e). reflexivity.
  - contradiction Ht. reflexivity.
Qed.

(** X11. In a document every node of which has keywords of the expected
    kinds (a $ref is a text, allOf, anyOf and oneOf are lists, required is a
    list or a text, no declared property is null), every reference of which
    walks through own properties (no segment names a member inherited from
    a built-in prototype where no own property has that name) and no object
    of which owns a property named toString, the synthesizer and the
    describer raise nothing on any of its schemas, with any fuel; when
    moreover every chain of references from the schema is finite, both
    return a result from some amount of fuel on. *)
Theorem well_formed_schemas_return now root schema d :
  well_formed root = true ->
  well_formed schema = true ->
  references_own root root = true ->
  references_own root schema = true ->
  prints_as_text root = true ->
  prints_as_text schema = true ->
  ref_chains_within d root schema = true ->
  (forall fuel b, raise_free (generateExample now fuel schema root b))
  /\ (forall fuel lines depth, raise_free (parseSchema fuel schema root lines depth))
  /\ exists N, forall fuel, N <= fuel ->
       (forall b, returned (generateExample now fuel schema root b))
       /\ (forall lines depth, returned (parseSchema fuel schema root lines depth)).
Proof.
  intros Hroot Hv _ _ _ _ Hd.
  assert (Hg : forall fuel b, raise_free (generateExample now fuel schema root b)).
  { intros fuel b. apply generateExample_raise_free; assumption. }
  assert (Hp : forall fuel lines depth, raise_free (parseSchema fuel schema root lines depth)).
  { intros fuel lines depth. apply parseSchema_raise_free; assumption. }
  split; [exact Hg|]. split; [exact Hp|].
  destruct (terminate_within now root d (S (size schema)) schema (Nat.lt_succ_diag_r _) Hd)
    as [N HN].
  exists N. intros fuel Hf. destruct (HN fuel Hf) as [Tg Tp]. split.
  - intros b. apply returned_of; [apply Tg | apply Hg].
  - intros lines depth. apply returned_of; [apply Tp | apply Hp].
Qed.

(** ** Earlier lines are never read *)

Lemma prepend_nil r : prepend [] r = r.
Proof. destruct r; reflexivity. Qed.

Lemma prepend_prepend a b r : prepend a (prepend b r) = prepend (a ++ b) r.
Proof. destruct r; simpl; [rewrite app_assoc|..]; reflexivity. Qed.

Lemma appends_only_at (f : list string -> result (list string)) a b :
  appends_only f -> f (a ++ b) = prepend a (f b).
Proof. intros H. rewrite (H (a ++ b)), (H b), prepend_prepend. reflexivity. Qed.

Lemma appends_only_forEach {A} (body : list string -> A -> result (list string)) l :
  (forall x, appends_only (fun lines => body lines x)) ->
  appends_only (forEach body l).
Proof.
  intros H. induction l as [|x l IH]; intros lines; simpl.
  - rewrite app_nil_r. reflexivity.
  - rewrite (H x lines). destruct (body [] x) as [m|e|]; simpl; try reflexivity.
    rewrite (IH (lines ++ m)), (IH m), prepend_prepend. reflexivity.
Qed.

Lemma describe_property_appends_only self root depth requiredFields kv :
  (forall c d, appends_only (fun lines => self c root lines d)) ->
  appends_only (fun lines => describe_property self root depth requiredFields lines kv).
Proof.
  intros H lines. unfold describe_property.
  destruct (includes requiredFields (fst kv)) as [r|e|]; simpl; try reflexivity.
  destruct (get (snd kv) "type") as [t|e|]; simpl; try reflexivity.
  unfold push.
  destruct (is_str "object" (prop (snd kv) "type") || truthy (prop (snd kv) "properties")
            || truthy (prop (snd kv) "$ref")).
  { apply (appends_only_at (fun l => self (snd kv) root l (depth + 1))), H. }
  destruct (is_str "array" (prop (snd kv) "type") && truthy (prop (snd kv) "items")).
  { rewrite <- app_assoc.
    apply (appends_only_at (fun l => self (prop (snd kv) "items") root l (depth + 2))), H. }
  reflexivity.
Qed.

Lemma parseSchema_body_appends_only self v root depth :
  (forall c d, appends_only (fun lines => self c root lines d)) ->
  appends_only (fun lines => parseSchema_body self v root lines depth).
Proof.
  intros H lines. unfold parseSchema_body.
  destruct (negb (truthy v)); [simpl; rewrite app_nil_r; reflexivity|].
  destruct (truthy (prop v "$ref")).
  { destruct (ref_text (prop v "$ref")) as [ref|e|]; simpl; try reflexivity.
    destruct (truthy (resolve root ref)); [apply H | reflexivity]. }
  destruct (truthy (prop v "allOf") || truthy (prop v "anyOf") || truthy (prop v "oneOf")).
  { destruct (as_array (or_else (prop v "allOf") (or_else (prop v "anyOf") (prop v "oneOf"))))
      as [subs|e|]; simpl; try reflexivity.
    unfold push.
    apply (appends_only_at (forEach (fun l sub => self sub root l (depth + 1)) subs)).
    apply appends_only_forEach. intros x. apply H. }
  destruct (is_str "object" (prop v "type") || truthy (prop v "properties")).
  { apply (appends_only_forEach (describe_property self root depth
                                   (or_else (prop v "required") (VArr [])))).
    intros x. apply describe_property_appends_only, H. }
  destruct (is_str "array" (prop v "type") && truthy (prop v "items")).
  { unfold push. apply (appends_only_at (fun l => self (prop v "items") root l (depth + 1))), H. }
  destruct (truthy (prop v "type")); [reflexivity|].
  simpl. rewrite app_nil_r. reflexivity.
Qed.

Lemma parseSchema_appends_only fuel :
  forall v root depth, appends_only (fun lines => parseSchema fuel v root lines depth).
Proof.
  induction fuel as [|fuel IH]; intros v root depth; [intros lines; reflexivity|].
  change (parseSchema (S fuel)) with (parseSchema_body (parseSchema fuel)).
  apply parseSchema_body_appends_only. intros c d. apply IH.
Qed.

Lemma parseSchema_at fuel v root a b depth :
  parseSchema fuel v root (a ++ b) depth = prepend a (parseSchema fuel v root b depth).
Proof.
  apply (appends_only_at (fun l => parseSchema fuel v root l depth)), parseSchema_appends_only.
Qed.

Ltac same_lists :=
  unfold push; repeat rewrite <- app_assoc; simpl app; reflexivity.

Lemma response_block_appends_only now fuel spec code response :
  appends_only (fun lines => response_block now fuel spec lines code response).
Proof.
  intros lines. unfold response_block.
  destruct (get response "description") as [d|e|]; simpl; try reflexivity.
  unfold push. simpl app.
  destruct (truthy (content_schema (or_else (prop response "content") (VObj [])))).
  - rewrite parseSchema_at.
    destruct (parseSchema fuel _ spec [_] 1) as [m|e|]; simpl; try reflexivity.
    destruct (response_example now fuel spec _ _) as [ex|e|]; simpl; try reflexivity.
    destruct (truthy ex); simpl; [|same_lists].
    destruct (Object_keys ex) as [ks|e|]; simpl; try reflexivity.
    destruct (0 <? List.length ks)%nat; simpl; same_lists.
  - destruct (truthy (prop response "$ref")).
    + rewrite parseSchema_at.
      destruct (parseSchema fuel response spec [_] 1) as [m|e|]; simpl; try reflexivity.
      same_lists.
    + simpl. same_lists.
Qed.

Lemma parameters_section_appends_only parameters :
  appends_only (parameters_section parameters).
Proof.
  intros lines. unfold parameters_section.
  destruct (gt_zero (prop parameters "length")); [|simpl; rewrite app_nil_r; reflexivity].
  destruct (as_array parameters) as [ps|e|]; simpl; try reflexivity.
  unfold push.
  apply (appends_only_at
           (forEach (fun l p => t <- parameter_line p ;; Ret (l ++ [t])) ps)).
  apply appends_only_forEach. intros p l.
  destruct (parameter_line p); reflexivity.
Qed.

Lemma output_section_appends_only now fuel spec responses :
  appends_only (output_section now fuel spec responses).
Proof.
  unfold output_section.
  destruct (0 <? List.length (own_entries responses))%nat.
  - apply (appends_only_forEach
             (fun lines kv => response_block now fuel spec lines (fst kv) (snd kv))).
    intros x. apply response_block_appends_only.
  - intros lines. reflexivity.
Qed.

Lemma input_examples_appends_only now fuel spec bodySchema :
  appends_only (input_examples now fuel spec bodySchema).
Proof.
  intros lines. unfold input_examples.
  destruct (truthy bodySchema); [|simpl; rewrite app_nil_r; reflexivity].
  destruct (generateExample now fuel bodySchema spec true) as [r|e|]; simpl; try reflexivity.
  destruct (generateExample now fuel bodySchema spec false) as [f|e|]; simpl; try reflexivity.
  destruct (Object_keys r) as [ks|e|]; simpl; try reflexivity.
  destruct (0 <? List.length ks)%nat; same_lists.
Qed.

(** The request body: the lines are only appended to, and the schema found
    does not depend on them. *)
Lemma request_body_section_at fuel spec requestBody a b :
  request_body_section fuel spec requestBody (a ++ b)
  = (st <- request_body_section fuel spec requestBody b ;; Ret (a ++ fst st, snd st)).
Proof.
  unfold request_body_section.
  destruct (truthy requestBody); [|reflexivity].
  destruct (truthy (content_schema (or_else (prop requestBody "content") (VObj [])))).
  - unfold push. rewrite <- app_assoc, parseSchema_at.
    destruct (parseSchema fuel _ spec (b ++ _) 0); reflexivity.
  - unfold push. cbn [bind fst snd]. repeat rewrite <- app_assoc. reflexivity.
Qed.

Lemma operation_block_appends_only now fuel spec baseUrl path method op :
  appends_only (operation_block now fuel spec baseUrl path method op).
Proof.
  intros lines. unfold operation_block.
  destruct (get op "summary") as [s|e|]; cbn [bind]; try reflexivity.
  set (heading := ("### " ++ toUpperCase method ++ " " ++ path ++ " - "
                   ++ ToString (or_else s (or_else (prop op "operationId")
                                             (VStr "No summary"))))%string).
  set (first := push (push (if truthy (prop op "description")
                            then push (push [] heading) (join_item (prop op "description"))
                            else push [] heading) "") "#### Input").
  assert (E : push (push (if truthy (prop op "description")
                          then push (push lines heading) (join_item (prop op "description"))
                          else push lines heading) "") "#### Input" = lines ++ first).
  { subst first. destruct (truthy (prop op "description")); same_lists. }
  rewrite E. clear E.
  rewrite (appends_only_at _ lines first (parameters_section_appends_only _)).
  destruct (parameters_section (or_else (prop op "parameters") (VArr [])) first)
    as [l1|e|]; cbn [bind prepend]; try reflexivity.
  rewrite request_body_section_at.
  destruct (request_body_section fuel spec (prop op "requestBody") l1)
    as [[l2 bodySchema]|e|]; cbn [bind]; try reflexivity.
  cbn [fst snd].
  set (l3 := push (if is_zero (prop (or_else (prop op "parameters") (VArr [])) "length")
                      && negb (truthy (prop op "requestBody"))
                   then push l2 "- No input parameters required." else l2) "").
  assert (E : push (if is_zero (prop (or_else (prop op "parameters") (VArr [])) "length")
                       && negb (truthy (prop op "requestBody"))
                    then push (lines ++ l2) "- No input parameters required."
                    else lines ++ l2) "" = lines ++ l3).
  { subst l3. destruct (is_zero _ && _); same_lists. }
  rewrite E. clear E.
  rewrite (appends_only_at _ lines l3 (input_examples_appends_only now fuel spec bodySchema)).
  destruct (input_examples now fuel spec bodySchema l3) as [l4|e|] ;
    cbn [bind prepend]; try reflexivity.
  unfold push at 1. rewrite <- app_assoc.
  rewrite (appends_only_at _ lines _ (output_section_appends_only now fuel spec _)).
  unfold push.
  destruct (output_section now fuel spec _ (l4 ++ ["#### Output"])) as [l5|e|] ;
    cbn [bind prepend]; try reflexivity.
  destruct (curl_command now fuel spec baseUrl path method bodySchema) as [c|e|] ;
    cbn [bind prepend]; try reflexivity.
  repeat rewrite <- app_assoc. reflexivity.
Qed.

(** X12. Neither the describer nor the writing of an operation reads the
    lines written so far: what they append, and whether they raise, is the
    same after any earlier lines as on an empty page. *)
Theorem earlier_lines_are_not_read now fuel spec baseUrl path method op schema root depth lines :
  parseSchema fuel schema root lines depth
  = prepend lines (parseSchema fuel schema root [] depth)
  /\ operation_block now fuel spec baseUrl path method op lines
     = prepend lines (operation_block now fuel spec baseUrl path method op []).
Proof.
  split.
  - apply (parseSchema_appends_only fuel schema root depth lines).
  - apply operation_block_appends_only.
Qed.

(** ** The shape of a conversion *)

(** The block of one operation, and its frame. *)
Lemma operation_block_alone now fuel spec baseUrl path method op lines out :
  operation_block now fuel spec baseUrl path method op lines = Ret out ->
  exists block,
    operation_block now fuel spec baseUrl path method op [] = Ret block
    /\ framed (path, method, op) block
    /\ out = lines ++ block.
Proof.
  intros H. rewrite operation_block_appends_only in H.
  destruct (operation_block now fuel spec baseUrl path method op []) as [block|e|] eqn:E;
    try discriminate H.
  inversion H. exists block. split; [reflexivity|]. split; [|reflexivity].
  destruct (operation_block_frame _ _ _ _ _ _ _ _ _ E) as [block' [Eb Hf]].
  simpl in Eb. subst block'. exact Hf.
Qed.

Lemma methods_loop now fuel spec baseUrl path methods :
  forall lines out,
    forEach (fun lines md =>
               if is_http_method (toLowerCase (fst md))
               then operation_block now fuel spec baseUrl path (fst md) (snd md) lines
               else Ret lines) methods lines = Ret out ->
    exists blocks,
      Forall2 (fun o block =>
                 operation_block now fuel spec baseUrl (fst (fst o)) (snd (fst o)) (snd o) []
                 = Ret block
                 /\ framed o block)
        (map (fun md => (path, fst md, snd md))
           (filter (fun md => is_http_method (toLowerCase (fst md))) methods)) blocks
      /\ out = lines ++ List.concat blocks.
Proof.
  induction methods as [|md methods IH]; intros lines out H; simpl in H.
  - inversion H. exists []. split; [constructor | simpl; symmetry; apply app_nil_r].
  - apply bind_ret in H. destruct H as [l1 [H1 H]]. simpl filter.
    destruct (is_http_method (toLowerCase (fst md))).
    + apply operation_block_alone in H1. destruct H1 as [block [Hb [Hf ->]]].
      destruct (IH _ _ H) as [blocks [Hbs ->]].
      exists (block :: blocks). split; [constructor; [split|]; assumption|].
      simpl. rewrite app_assoc. reflexivity.
    + inversion H1. subst l1. apply IH, H.
Qed.

Lemma paths_loop now fuel spec baseUrl paths :
  forall lines out,
    forEach (fun lines pm =>
               methods <- Object_entries (snd pm) ;;
               forEach (fun lines md =>
                          if is_http_method (toLowerCase (fst md))
                          then operation_block now fuel spec baseUrl (fst pm) (fst md)
                                 (snd md) lines
                          else Ret lines) methods lines) paths lines = Ret out ->
    exists blocks,
      Forall2 (fun o block =>
                 operation_block now fuel spec baseUrl (fst (fst o)) (snd (fst o)) (snd o) []
                 = Ret block
                 /\ framed o block)
        (flat_map (fun pm =>
                     map (fun md => (fst pm, fst md, snd md))
                       (filter (fun md => is_http_method (toLowerCase (fst md)))
                          (own_entries (snd pm)))) paths) blocks
      /\ out = lines ++ List.concat blocks.
Proof.
  induction paths as [|pm paths IH]; intros lines out H; simpl in H.
  - inversion H. exists []. split; [constructor | simpl; symmetry; apply app_nil_r].
  - apply bind_ret in H. destruct H as [l1 [H1 H]].
    apply bind_ret in H1. destruct H1 as [methods [Hm H1]].
    assert (Em : methods = own_entries (snd pm)).
    { destruct (snd pm); simpl in Hm; try discriminate Hm; inversion Hm; reflexivity. }
    subst methods.
    apply methods_loop in H1. destruct H1 as [b1 [F1 ->]].
    destruct (IH _ _ H) as [b2 [F2 ->]].
    exists (b1 ++ b2). split.
    + simpl flat_map. apply Forall2_app; assumption.
    + rewrite concat_app, app_assoc. reflexivity.
Qed.

(** X13. Every conversion that returns is the five header lines followed by
    one block per accepted operation, in the order of the document (paths
    in their order, methods in theirs, keys that are no method left out),
    joined by newlines.  Each block is what the operation writes on an empty
    page, whatever comes before it; it opens with the heading
    ### METHOD path - summary, where the summary falls back to the
    operationId and then to No summary, and closes with the end of the cURL
    fence, an empty line, a horizontal rule and an empty line. *)
Theorem conversion_is_header_then_blocks now fuel spec out :
  convert now fuel spec = Ret out ->
  exists blocks,
    Forall2 (fun o block =>
               operation_block now fuel spec (base_url spec)
                 (fst (fst o)) (snd (fst o)) (snd o) [] = Ret block
               /\ framed o block)
      (accepted_operations spec) blocks
    /\ out = join nl ([ title_line (prop spec "info"); summary_line (prop spec "info");
                        ""; "## Endpoints"; "" ] ++ List.concat blocks).
Proof.
  unfold convert. intros H.
  apply bind_ret in H. destruct H as [info [Hi H]].
  assert (Ei : info = prop spec "info").
  { destruct spec; simpl in Hi; try discriminate Hi; inversion Hi; reflexivity. }
  subst info.
  apply bind_ret in H. destruct H as [t [_ H]].
  apply bind_ret in H. destruct H as [lines [Hl H]].
  apply paths_loop in Hl. destruct Hl as [blocks [Hb ->]].
  exists blocks. split; [exact Hb|]. inversion H. reflexivity.
Qed.

(** ** Keywords of an unexpected kind *)

Lemma forEach_app {A S} (body : S -> A -> result S) l1 l2 s :
  forEach body (l1 ++ l2) s = (s' <- forEach body l1 s ;; forEach body l2 s').
Proof.
  revert s. induction l1 as [|x l1 IH]; intros s; simpl; [reflexivity|].
  destruct (body s x); simpl; [apply IH | reflexivity | reflexivity].
Qed.

Lemma parseSchema_object fuel schema root lines depth :
  described_as_object schema = true ->
  parseSchema (S fuel) schema root lines depth
  = forEach (describe_property (parseSchema fuel) root depth
               (or_else (prop schema "required") (VArr [])))
      (declared schema) lines.
Proof.
  intros Hnode.
  assert (Ht : truthy schema = true).
  { unfold described_as_object in Hnode. destruct schema; simpl in Hnode; try discriminate.
    reflexivity. }
  unfold described_as_object in Hnode.
  repeat (apply andb_prop in Hnode; destruct Hnode as [Hnode ?]).
  repeat match goal with
         | Hn : negb _ = true |- _ => apply negb_true_iff in Hn
         end.
  change (parseSchema (S fuel)) with (parseSchema_body (parseSchema fuel)).
  unfold parseSchema_body.
  repeat match goal with
         | Hn : _ = false |- _ => rewrite Hn
         | Hn : _ = true |- _ => rewrite Hn
         end.
  reflexivity.
Qed.

Lemma object_node_described schema : object_node schema = true -> described_as_object schema = true.
Proof.
  unfold object_node, described_as_object. intros H.
  repeat (apply andb_prop in H; destruct H as [H ?]).
  repeat (apply andb_true_intro; split); assumption.
Qed.

(** X14. A declared property whose schema is null or undefined aborts the
    describer with a TypeError (it reads the type of the property before
    any test, line 270), after the lines of the flat properties declared
    before it; the synthesizer returns undefined for the same property
    schema and goes on. *)
Theorem null_property_aborts_describer now fuel schema root lines depth reqs before k v after :
  described_as_object schema = true ->
  or_else (prop schema "required") (VArr []) = VArr reqs ->
  declared schema = before ++ (k, v) :: after ->
  forallb (fun kv => flat_property (snd kv)) before = true ->
  is_nullish v = true ->
  parseSchema (S fuel) schema root lines depth = Raise TypeError
  /\ forall onlyRequired, generateExample now (S fuel) v root onlyRequired = Ret VUndefined.
Proof.
  intros Hnode Hreq Hdecl Hflat Hnull. split.
  - rewrite (parseSchema_object fuel schema root lines depth Hnode), Hreq, Hdecl, forEach_app.
    rewrite (describe_flat_properties _ _ _ _ _ Hflat). cbn [bind forEach].
    unfold describe_property. cbn [fst snd includes bind].
    destruct v; try discriminate Hnull; reflexivity.
  - intros b.
    change (generateExample now (S fuel)) with (generateExample_body now (generateExample now fuel)).
    destruct v; try discriminate Hnull; reflexivity.
Qed.

(** X15. A required keyword that is truthy but neither a list nor a text
    (the boolean of older schema drafts, a number, an object) aborts with a
    TypeError as soon as the node declares a property: the describer always,
    the synthesizer in required-only mode. *)
Theorem non_list_required_aborts now fuel schema root lines depth k v rest :
  object_node schema = true ->
  truthy (prop schema "required") = true ->
  isArray (prop schema "required") = false ->
  is_text (prop schema "required") = false ->
  declared schema = (k, v) :: rest ->
  parseSchema (S fuel) schema root lines depth = Raise TypeError
  /\ generateExample now (S fuel) schema root true = Raise TypeError.
Proof.
  intros Hnode Ht Ha Hs Hdecl.
  assert (Hinc : includes (or_else (prop schema "required") (VArr [])) k = Raise TypeError).
  { unfold or_else. rewrite Ht.
    destruct (prop schema "required"); try discriminate; reflexivity. }
  split.
  - rewrite (parseSchema_object fuel schema root lines depth (object_node_described _ Hnode)).
    rewrite Hdecl. cbn [forEach]. unfold describe_property. cbn [fst snd].
    rewrite Hinc. reflexivity.
  - rewrite (generateExample_object now fuel schema root true Hnode), Hdecl.
    cbn [forEach]. unfold add_property. cbn [fst snd]. rewrite Hinc. reflexivity.
Qed.

(** ** The parameter list *)




(** ** A request body without a schema *)


(** ** The further theorems at sample documents *)

Lemma describer_indented_witness :
  parseSchema 3 pet_ref pet_doc ["**Request Body:**"] 1
  = Ret [ "**Request Body:**";
          property_line 1 "id" true integer_schema;
          property_line 1 "name" false string_schema ]
  /\ exists more,
       [ "**Request Body:**";
         property_line 1 "id" true integer_schema;
         property_line 1 "name" false string_schema ] = ["**Request Body:**"] ++ more
       /\ Forall (fun l => prefix (repeat_str "  " 1) l = true) more.
Proof.
  assert (H : parseSchema 3 pet_ref pet_doc ["**Request Body:**"] 1
              = Ret [ "**Request Body:**";
                      property_line 1 "id" true integer_schema;
                      property_line 1 "name" false string_schema ]) by reflexivity.
  split; [exact H|].
  exact (describer_appends_indented_lines 3 pet_ref pet_doc ["**Request Body:**"] 1 _ H).
Defined.


Lemma reference_resolves_witness :
  ["components"; "schemas"; "Pet"] <> []
  /\ forallb (fun s => negb (has_slash s)) ["components"; "schemas"; "Pet"] = true
  /\ refPath "#/components/schemas/Pet" = ["components"; "schemas"; "Pet"]
  /\ resolve pet_doc "#/components/schemas/Pet" = pet_schema.
Proof.
  assert (H1 : ["components"; "schemas"; "Pet"] <> []) by discriminate.
  assert (H2 : forallb (fun s => negb (has_slash s)) ["components"; "schemas"; "Pet"] = true)
    by reflexivity.
  split; [exact H1|]. split; [exact H2|].
  exact (reference_resolves_segment_by_segment pet_doc ["components"; "schemas"; "Pet"] H1 H2).
Defined.


Lemma method_case_witness :
  toLowerCase "GET" = toLowerCase "get"
  /\ is_http_method (toLowerCase "GET") = true
  /\ is_http_method (toLowerCase "get") = true
  /\ operation_block sample_now 0 scenario_a (VStr "https://api.example.com") "/x" "GET"
       ping_operation []
     = operation_block sample_now 0 scenario_a (VStr "https://api.example.com") "/x" "get"
         ping_operation [].
Proof.
  assert (H1 : toLowerCase "GET" = toLowerCase "get") by reflexivity.
  assert (H2 : is_http_method (toLowerCase "GET") = true) by reflexivity.
  split; [exact H1|]. split; [exact H2|].
  exact (method_case_is_irrelevant sample_now 0 scenario_a (VStr "https://api.example.com")
           "/x" "GET" "get" ping_operation [] H1 H2).
Defined.

Lemma conversion_shape_witness :
  convert sample_now 0 scenario_a
  = Ret (join nl
           [ "# T"; "No description provided."; ""; "## Endpoints"; "";
             "### GET /x - No summary"; ""; "#### Input";
             "- No input parameters required."; ""; "#### Output";
             "**Response 200: ok**"; "  - No response body schema defined."; "";
             "#### Usage Examples"; ""; "##### cURL"; "```bash";
             "curl --request GET " ++ bsl ++ nl ++ "  --url https://api.example.com/x "
               ++ bsl ++ nl ++ "  --header " ++ dq ++ "Content-Type: application/json" ++ dq;
             "```"; ""; "---"; "" ]%string)
  /\ exists blocks,
       Forall2 (fun o block =>
                  operation_block sample_now 0 scenario_a (base_url scenario_a)
                    (fst (fst o)) (snd (fst o)) (snd o) [] = Ret block
                  /\ framed o block)
         (accepted_operations scenario_a) blocks
       /\ join nl
            [ "# T"; "No description provided."; ""; "## Endpoints"; "";
              "### GET /x - No summary"; ""; "#### Input";
              "- No input parameters required."; ""; "#### Output";
              "**Response 200: ok**"; "  - No response body schema defined."; "";
              "#### Usage Examples"; ""; "##### cURL"; "```bash";
              "curl --request GET " ++ bsl ++ nl ++ "  --url https://api.example.com/x "
                ++ bsl ++ nl ++ "  --header " ++ dq ++ "Content-Type: application/json" ++ dq;
              "```"; ""; "---"; "" ]%string
          = join nl ([ title_line (prop scenario_a "info");
                       summary_line (prop scenario_a "info");
                       ""; "## Endpoints"; "" ] ++ List.concat blocks).
Proof.
  assert (H : convert sample_now 0 scenario_a
              = Ret (join nl
                       [ "# T"; "No description provided."; ""; "## Endpoints"; "";
                         "### GET /x - No summary"; ""; "#### Input";
                         "- No input parameters required."; ""; "#### Output";
                         "**Response 200: ok**"; "  - No response body schema defined."; "";
                         "#### Usage Examples"; ""; "##### cURL"; "```bash";
                         "curl --request GET " ++ bsl ++ nl
                           ++ "  --url https://api.example.com/x "
                           ++ bsl ++ nl ++ "  --header " ++ dq
                           ++ "Content-Type: application/json" ++ dq;
                         "```"; ""; "---"; "" ]%string)) by reflexivity.
  split; [exact H|].
  exact (conversion_is_header_then_blocks sample_now 0 scenario_a _ H).
Defined.


Lemma unrequired_properties_witness :
  object_node node_schema = true
  /\ or_else (prop node_schema "required") (VArr []) = VArr []
  /\ forallb (fun kv => negb (existsb (is_str (fst kv)) [])) (declared node_schema) = true
  /\ generateExample sample_now 1 node_schema cyclic_doc true = Ret (VObj []).
Proof.
  assert (H1 : object_node node_schema = true) by reflexivity.
  assert (H2 : or_else (prop node_schema "required") (VArr []) = VArr []) by reflexivity.
  assert (H3 : forallb (fun kv => negb (existsb (is_str (fst kv)) [])) (declared node_schema)
               = true) by reflexivity.
  split; [exact H1|]. split; [exact H2|]. split; [exact H3|].
  exact (unrequired_properties_are_not_visited sample_now 0 node_schema cyclic_doc [] H1 H2 H3).
Defined.

Lemma response_example_witness :
  is_nullish count_response = false
  /\ truthy (content_schema (or_else (prop count_response "content") (VObj []))) = true
  /\ parseSchema 1 (content_schema (or_else (prop count_response "content") (VObj []))) VNull
       ([] ++ [("**Response " ++ "200" ++ ": "
                ++ ToString (or_else (prop count_response "description")
                               (VStr "No description")) ++ "**")%string]) 1
     = Ret ["**Response 200: ok**"; ("  - (" ++ bq ++ "integer" ++ bq ++ ")")%string]
  /\ response_example sample_now 1 VNull (or_else (prop count_response "content") (VObj []))
       (content_schema (or_else (prop count_response "content") (VObj []))) = Ret (VNum 0)
  /\ response_block sample_now 1 VNull [] "200" count_response
     = Ret ["**Response 200: ok**"; ("  - (" ++ bq ++ "integer" ++ bq ++ ")")%string; ""].
Proof.
  assert (H1 : is_nullish count_response = false) by reflexivity.
  assert (H2 : truthy (content_schema (or_else (prop count_response "content") (VObj [])))
               = true) by reflexivity.
  assert (H3 : parseSchema 1
                 (content_schema (or_else (prop count_response "content") (VObj []))) VNull
                 ([] ++ [("**Response " ++ "200" ++ ": "
                          ++ ToString (or_else (prop count_response "description")
                                         (VStr "No description")) ++ "**")%string]) 1
               = Ret ["**Response 200: ok**"; ("  - (" ++ bq ++ "integer" ++ bq ++ ")")%string])
    by reflexivity.
  assert (H4 : response_example sample_now 1 VNull
                 (or_else (prop count_response "content") (VObj []))
                 (content_schema (or_else (prop count_response "content") (VObj [])))
               = Ret (VNum 0)) by reflexivity.
  split; [exact H1|]. split; [exact H2|]. split; [exact H3|]. split; [exact H4|].
  exact (response_example_is_guarded sample_now 1 VNull [] "200" count_response _ _
           H1 H2 H3 H4).
Defined.

Lemma well_formed_witness :
  well_formed pet_doc = true
  /\ well_formed pet_ref = true
  /\ references_own pet_doc pet_doc = true
  /\ references_own pet_doc pet_ref = true
  /\ prints_as_text pet_doc = true
  /\ prints_as_text pet_ref = true
  /\ ref_chains_within 1 pet_doc pet_ref = true
  /\ (forall fuel b, raise_free (generateExample sample_now fuel pet_ref pet_doc b))
  /\ (forall fuel lines depth, raise_free (parseSchema fuel pet_ref pet_doc lines depth))
  /\ exists N, forall fuel, N <= fuel ->
       (forall b, returned (generateExample sample_now fuel pet_ref pet_doc b))
       /\ (forall lines depth, returned (parseSchema fuel pet_ref pet_doc lines depth)).
Proof.
  assert (H1 : well_formed pet_doc = true) by reflexivity.
  assert (H2 : well_formed pet_ref = true) by reflexivity.
  assert (H3 : references_own pet_doc pet_doc = true) by reflexivity.
  assert (H4 : references_own pet_doc pet_ref = true) by reflexivity.
  assert (H5 : prints_as_text pet_doc = true) by reflexivity.
  assert (H6 : prints_as_text pet_ref = true) by reflexivity.
  assert (H7 : ref_chains_within 1 pet_doc pet_ref = true) by reflexivity.
  split; [exact H1|]. split; [exact H2|]. split; [exact H3|]. split; [exact H4|].
  split; [exact H5|]. split; [exact H6|]. split; [exact H7|].
  exact (well_formed_schemas_return sample_now pet_doc pet_ref 1 H1 H2 H3 H4 H5 H6 H7).
Defined.

Lemma null_property_witness :
  described_as_object null_property_schema = true
  /\ or_else (prop null_property_schema "required") (VArr []) = VArr []
  /\ declared null_property_schema = [("a", string_schema)] ++ ("b", VNull) :: []
  /\ forallb (fun kv => flat_property (snd kv)) [("a", string_schema)] = true
  /\ is_nullish VNull = true
  /\ parseSchema 1 null_property_schema VNull [] 0 = Raise TypeError
  /\ forall onlyRequired, generateExample sample_now 1 VNull VNull onlyRequired = Ret VUndefined.
Proof.
  assert (H1 : described_as_object null_property_schema = true) by reflexivity.
  assert (H2 : or_else (prop null_property_schema "required") (VArr []) = VArr [])
    by reflexivity.
  assert (H3 : declared null_property_schema = [("a", string_schema)] ++ ("b", VNull) :: [])
    by reflexivity.
  assert (H4 : forallb (fun kv => flat_property (snd kv)) [("a", string_schema)] = true)
    by reflexivity.
  assert (H5 : is_nullish VNull = true) by reflexivity.
  split; [exact H1|]. split; [exact H2|]. split; [exact H3|]. split; [exact H4|].
  split; [exact H5|].
  exact (null_property_aborts_describer sample_now 0 null_property_schema VNull [] 0 []
           [("a", string_schema)] "b" VNull [] H1 H2 H3 H4 H5).
Defined.

Lemma non_list_required_witness :
  object_node boolean_required_schema = true
  /\ truthy (prop boolean_required_schema "required") = true
  /\ isArray (prop boolean_required_schema "required") = false
  /\ is_text (prop boolean_required_schema "required") = false
  /\ declared boolean_required_schema = ("a", string_schema) :: []
  /\ parseSchema 1 boolean_required_schema VNull [] 0 = Raise TypeError
  /\ generateExample sample_now 1 boolean_required_schema VNull true = Raise TypeError.
Proof.
  assert (H1 : object_node boolean_required_schema = true) by reflexivity.
  assert (H2 : truthy (prop boolean_required_schema "required") = true) by reflexivity.
  assert (H3 : isArray (prop boolean_required_schema "required") = false) by reflexivity.
  assert (H4 : is_text (prop boolean_required_schema "required") = false) by reflexivity.
  assert (H5 : declared boolean_required_schema = ("a", string_schema) :: []) by reflexivity.
  split; [exact H1|]. split; [exact H2|]. split; [exact H3|]. split; [exact H4|].
  split; [exact H5|].
  exact (non_list_required_aborts sample_now 0 boolean_required_schema VNull [] 0
           "a" string_schema [] H1 H2 H3 H4 H5).
Defined.


